(** * fuxx: a memory latency benchmark

    Shallow embedding of [fuxx.cpp] and proofs about its argument handling,
    its access pattern and the two timed loops.

    Conventions of the model.
    - [size_t], [unsigned long] and [uint64_t] are 64 bits wide (LP64); a value
      of these types is a [Z] in [0, 2^64) and every operation that can leave
      that range is followed by [wrap64].  A [uint8_t] is a [Z] in [0, 256).
    - An array obtained from [new uint8_t[n]] is a [list Z] of length [n]; an
      access outside of it is undefined behaviour in C++ and aborts the model
      with [OutOfBounds].
    - [new uint8_t[n]] throws [std::bad_alloc] when the allocator refuses the
      request; nothing catches it, and the run ends there with [BadAlloc].
      What the allocator grants is a parameter, [avail], about which nothing
      is assumed.
    - The program state (the globals, standard output, and a log of the
      allocations, clock readings and array accesses) is threaded through a
      state-and-abort monad [M].
    - The [while] loop that wraps the cursor takes fuel; running out of it
      aborts with [OutOfFuel].  Termination is proved, not assumed. *)

From Stdlib Require Import ZArith List String Ascii Lia Bool.
From stdpp Require Import base list.

Local Open Scope Z_scope.

(** ** Machine integers *)

Definition wrap64 (z : Z) : Z := z mod 2 ^ 64.
Definition to_u8 (z : Z) : Z := z mod 256.

(** ** [std::stoul]

    The standard library function is not part of the repository; this is its
    behaviour in base 10 ([strtoul] followed by the checks of [std::stoul]):
    leading white space is skipped, one sign is accepted, the longest run of
    decimal digits is converted and anything after it is ignored.  Without a
    digit the call throws [std::invalid_argument]; a magnitude that does not
    fit [unsigned long] throws [std::out_of_range]; a minus sign negates the
    value in [unsigned long]. *)

Inductive stoul_result : Type :=
| Parsed (n : Z)
| invalid_argument
| out_of_range.

Definition isspace (c : ascii) : bool :=
  let n := Z.of_nat (nat_of_ascii c) in
  (n =? 32) || ((9 <=? n) && (n <=? 13)).

Definition digit_of (c : ascii) : option Z :=
  let n := Z.of_nat (nat_of_ascii c) in
  if (48 <=? n) && (n <=? 57) then Some (n - 48) else None.

Fixpoint skip_spaces (s : string) : string :=
  match s with
  | String c s' => if isspace c then skip_spaces s' else s
  | EmptyString => s
  end.

(** [read_digits s acc]: [acc] is [None] until a first digit has been read. *)
Fixpoint read_digits (s : string) (acc : option Z) : option Z :=
  match s with
  | String c s' =>
      match digit_of c with
      | Some d => read_digits s' (Some (10 * (default 0 acc) + d))
      | None => acc
      end
  | EmptyString => acc
  end.

Definition strip_sign (s : string) : bool * string :=
  match s with
  | String c s' =>
      if Ascii.eqb c "-" then (true, s')
      else if Ascii.eqb c "+" then (false, s')
      else (false, s)
  | EmptyString => (false, s)
  end.

Definition stoul (s : string) : stoul_result :=
  let '(neg, body) := strip_sign (skip_spaces s) in
  match read_digits body None with
  | None => invalid_argument
  | Some v =>
      if v <? 2 ^ 64 then Parsed (if neg then wrap64 (- v) else v)
      else out_of_range
  end.

(** ** Program state *)

(** What is sent to [std::cout].  Numbers are kept as numbers; the quotient
    printed by [report] is a [double] and is kept as the pair it is computed
    from. *)
Inductive chunk : Type :=
| Str (s : string)
| Num (n : Z)
| Ratio (a b : Z)
| Endl.

(** Log of the operations on memory and on the clock, oldest first. *)
Inductive event : Type :=
| EvNew (n : Z)
| EvDelete
| EvNow (t : Z)
| EvLoad (pos v : Z)
| EvStore (pos v : Z).

Record world : Type := World {
  memUsage : Z;
  diskUsage : Z;
  timeFactor : Z;
  verbose : bool;
  dummy : Z;
  stdout : list chunk;
  events : list event;
  ticks : nat
}.

(** The globals as initialised at lines 31-35. *)
Definition initial_world : world :=
  {| memUsage := 0; diskUsage := 0; timeFactor := 100; verbose := false;
     dummy := 0; stdout := []; events := []; ticks := 0 |}.

Definition set_memUsage (v : Z) (w : world) : world :=
  {| memUsage := v; diskUsage := diskUsage w; timeFactor := timeFactor w;
     verbose := verbose w; dummy := dummy w; stdout := stdout w;
     events := events w; ticks := ticks w |}.

Definition set_diskUsage (v : Z) (w : world) : world :=
  {| memUsage := memUsage w; diskUsage := v; timeFactor := timeFactor w;
     verbose := verbose w; dummy := dummy w; stdout := stdout w;
     events := events w; ticks := ticks w |}.

Definition set_timeFactor (v : Z) (w : world) : world :=
  {| memUsage := memUsage w; diskUsage := diskUsage w; timeFactor := v;
     verbose := verbose w; dummy := dummy w; stdout := stdout w;
     events := events w; ticks := ticks w |}.

Definition set_dummy (v : Z) (w : world) : world :=
  {| memUsage := memUsage w; diskUsage := diskUsage w;
     timeFactor := timeFactor w; verbose := verbose w; dummy := v;
     stdout := stdout w; events := events w; ticks := ticks w |}.

Definition emit (cs : list chunk) (w : world) : world :=
  {| memUsage := memUsage w; diskUsage := diskUsage w;
     timeFactor := timeFactor w; verbose := verbose w; dummy := dummy w;
     stdout := stdout w ++ cs; events := events w; ticks := ticks w |}.

Definition log (es : list event) (w : world) : world :=
  {| memUsage := memUsage w; diskUsage := diskUsage w;
     timeFactor := timeFactor w; verbose := verbose w; dummy := dummy w;
     stdout := stdout w; events := events w ++ es; ticks := ticks w |}.

Definition tick (w : world) : world :=
  {| memUsage := memUsage w; diskUsage := diskUsage w;
     timeFactor := timeFactor w; verbose := verbose w; dummy := dummy w;
     stdout := stdout w; events := events w; ticks := S (ticks w) |}.

(** ** The monad *)

Inductive failure : Type :=
| BadArgument      (* std::invalid_argument escaping from main *)
| BadRange         (* std::out_of_range escaping from main *)
| BadAlloc         (* std::bad_alloc escaping from main *)
| OutOfBounds      (* an array access outside the array *)
| OutOfFuel.       (* the wrap-around loop did not finish within its fuel *)

Inductive result (A : Type) : Type :=
| Ok (a : A) (w : world)
| Abort (e : failure) (w : world).
Arguments Ok {A} a w.
Arguments Abort {A} e w.

Definition M (A : Type) : Type := world -> result A.

Definition ret {A} (a : A) : M A := fun w => Ok a w.

Definition bind {A B} (m : M A) (k : A -> M B) : M B :=
  fun w =>
    match m w with
    | Ok a w' => k a w'
    | Abort e w' => Abort e w'
    end.

Declare Scope prog_scope.
Delimit Scope prog_scope with prog.
Notation "x <- m ;; k" := (bind m (fun x => k))
  (at level 100, m at next level, right associativity) : prog_scope.
Notation "m ;; k" := (bind m (fun _ => k))
  (at level 100, right associativity) : prog_scope.
Local Open Scope prog_scope.

Definition world_of {A} (r : result A) : world :=
  match r with
  | Ok _ w => w
  | Abort _ w => w
  end.

Definition get {A} (f : world -> A) : M A := fun w => Ok (f w) w.
Definition modify (f : world -> world) : M unit := fun w => Ok tt (f w).

(** One statement [std::cout << c1 << c2 << ...]. *)
Definition cout (cs : list chunk) : M unit := modify (emit cs).

(** [for (size_t i = i0; i < i0 + n; ++i) body], for a body that changes
    neither [i] nor the bound: [n] rounds, with [i] going up by one from
    [i0]; [l] are the locals the body updates. *)
Fixpoint for_loop {L} (n : nat) (i : Z) (body : Z -> L -> M L) (l : L) : M L :=
  match n with
  | O => ret l
  | S n' => l' <- body i l ;; for_loop n' (wrap64 (i + 1)) body l'
  end.

(** [while (pos >= memUsage) pos -= memUsage;] *)
Fixpoint wrap_around (fuel : nat) (pos : Z) : M Z :=
  fun w =>
    if pos >=? memUsage w then
      match fuel with
      | O => Abort OutOfFuel w
      | S fuel' => wrap_around fuel' (wrap64 (pos - memUsage w)) w
      end
    else Ok pos w.

(** ** The program *)

Section Program.

(** Contents of a freshly allocated array: [new uint8_t[n]] does not
    initialise its cells. *)
Variable junk : nat -> Z.

(** Reading of [std::chrono::high_resolution_clock] at the n-th call of
    [timeNow], in nanoseconds. *)
Variable clock : nat -> Z.

Definition timeNow : M Z :=
  fun w => Ok (clock (ticks w)) (tick (log [EvNow (clock (ticks w))] w)).

Definition timeDiff (a b : Z) : Z := wrap64 (b - a).

(** The allocator: [avail es] is the size in bytes of the largest request
    it grants after the events [es].  It may change with every event, so the
    array of one benchmark may be granted and that of the other refused.  A
    request of zero bytes is granted by every allocator. *)
Variable avail : list event -> N.

(** [new uint8_t[n]]: a fresh array of [n] bytes, or [std::bad_alloc] when
    the allocator refuses the request. *)
Definition new_array (n : Z) : M (list Z) :=
  fun w =>
    if n <=? Z.of_N (avail (events w))
    then Ok (junk <$> seq 0 (Z.to_nat n)) (log [EvNew n] w)
    else Abort BadAlloc w.

Definition delete_array (p : list Z) : M unit := modify (log [EvDelete]).

(** [p[pos]] as an rvalue; [pos] is a [size_t] and never negative. *)
Definition load (p : list Z) (pos : Z) : M Z :=
  fun w =>
    match p !! Z.to_nat pos with
    | Some v => Ok v (log [EvLoad pos v] w)
    | None => Abort OutOfBounds w
    end.

(** [p[pos] = v] *)
Definition store (p : list Z) (pos v : Z) : M (list Z) :=
  fun w =>
    if pos <? Z.of_nat (length p)
    then Ok (<[Z.to_nat pos := v]> p) (log [EvStore pos v] w)
    else Abort OutOfBounds w.

Definition report (operation : string) (totalTime nrOps : Z) : M unit :=
  cout [Str "Total Time: "; Num totalTime; Str " nanoseconds for ";
        Num nrOps; Str " operations."; Endl] ;;
  cout [Str "Time per '"; Str operation; Str "': "; Ratio totalTime nrOps;
        Str " nanoseconds"; Endl].

Definition banner_read : string := "
memoryLatencyRead:

This allocates as much memory as allowed and does single byte reads in a
random access fashion. The result is  the average time it takes to fetch
a cache line.

".

Definition banner_write : string := "
memoryLatencyWrite:

This allocates as much memory as allowed and does single byte writes
in a random access fashion. The result is the average time it takes to
write a byte.

".

Definition usage : string := "
Usage: fuxx <memUsageMiB> <diskUsageMiB> [<timeFactor>] 
       where <memUsage> and <diskUsage> are in Mebibytes
       and timeFactor is in percent of the normal runtime.

".

(** [size_t const nrTries = 300000000 * timeFactor / 100;] *)
Definition nrTries_of (tf : Z) : Z := wrap64 (300000000 * tf) / 100.

(** [for (size_t i = 0; i < memUsage; ++i) p[i] = i & 0xff;] *)
Definition init_body (i : Z) (p : list Z) : M (list Z) :=
  store p i (to_u8 (Z.land i 255)).

Definition init_loop (p : list Z) : M (list Z) :=
  n <- get memUsage ;;
  for_loop (Z.to_nat n) 0 init_body p.

(** The cursor is advanced the same way in both timed loops:
    [pos += 17*64; while (pos >= memUsage) pos -= memUsage;] *)
Definition advance (fuel : nat) (pos : Z) : M Z :=
  wrap_around fuel (wrap64 (pos + 17 * 64)).

(** Body of the timed loop of [memoryLatencyRead]; the locals are the array
    and the cursor. *)
Definition read_body (fuel : nat) (i : Z) (l : list Z * Z) : M (list Z * Z) :=
  let '(p, pos) := l in
  v <- load p pos ;;
  modify (fun w => set_dummy (wrap64 (dummy w + v)) w) ;;
  pos' <- advance fuel pos ;;
  ret (p, pos').

Definition read_loop (fuel : nat) (nrTries : Z) (l : list Z * Z)
  : M (list Z * Z) :=
  for_loop (Z.to_nat nrTries) 0 (read_body fuel) l.

Definition memoryLatencyRead (fuel : nat) : M unit :=
  cout [Str banner_read] ;;
  n <- get memUsage ;;
  p <- new_array n ;;
  let pos := 0 in
  tf <- get timeFactor ;;
  let nrTries := nrTries_of tf in
  p <- init_loop p ;;
  start <- timeNow ;;
  l <- read_loop fuel nrTries (p, pos) ;;
  end_ <- timeNow ;;
  delete_array (fst l) ;;
  report "single byte read" (timeDiff start end_) nrTries.

(** Body of the timed loop of [memoryLatencyWrite]: [p[pos] = i % 0xff;] and
    the advance of the cursor. *)
Definition write_body (fuel : nat) (i : Z) (l : list Z * Z) : M (list Z * Z) :=
  let '(p, pos) := l in
  p' <- store p pos (to_u8 (i mod 255)) ;;
  pos' <- advance fuel pos ;;
  ret (p', pos').

Definition write_loop (fuel : nat) (nrTries : Z) (l : list Z * Z)
  : M (list Z * Z) :=
  for_loop (Z.to_nat nrTries) 0 (write_body fuel) l.

Definition memoryLatencyWrite (fuel : nat) : M unit :=
  cout [Str banner_write] ;;
  n <- get memUsage ;;
  p <- new_array n ;;
  let pos := 0 in
  tf <- get timeFactor ;;
  let nrTries := nrTries_of tf in
  p <- init_loop p ;;
  start <- timeNow ;;
  l <- write_loop fuel nrTries (p, pos) ;;
  end_ <- timeNow ;;
  delete_array (fst l) ;;
  report "single byte write" (timeDiff start end_) nrTries.

(** [std::stoul(argv[i])]; an exception that escapes [main] ends the run. *)
Definition stoul_arg (argv : list string) (i : nat) : M Z :=
  fun w =>
    match stoul (nth i argv EmptyString) with
    | Parsed v => Ok v w
    | invalid_argument => Abort BadArgument w
    | out_of_range => Abort BadRange w
    end.

Definition argc (argv : list string) : Z := Z.of_nat (length argv).

(** Lines 131-149 of [main]: the globals are set from the arguments. *)
Definition configure (argv : list string) : M unit :=
  v <- stoul_arg argv 1 ;;
  modify (set_memUsage v) ;;
  modify (fun w => set_memUsage (if memUsage w >? 0 then memUsage w else 128) w) ;;
  modify (fun w =>
    set_memUsage (if memUsage w <? 1024 * 1024 then memUsage w else 1024) w) ;;
  m <- get memUsage ;;
  cout [Str "Memory usage in MiB: "; Num m; Endl] ;;
  v <- stoul_arg argv 2 ;;
  modify (set_diskUsage v) ;;
  modify (fun w =>
    set_diskUsage (if diskUsage w >=? 16 then diskUsage w else 16) w) ;;
  modify (fun w =>
    set_diskUsage (if diskUsage w <? 1024 * 1024 then diskUsage w else 1024) w) ;;
  d <- get diskUsage ;;
  cout [Str "Disk   usage in MiB: "; Num d; Endl] ;;
  modify (fun w => set_memUsage (wrap64 (memUsage w * (1024 * 1024))) w) ;;
  modify (fun w => set_diskUsage (wrap64 (diskUsage w * (1024 * 1024))) w) ;;
  if argc argv >=? 4 then
    v <- stoul_arg argv 3 ;;
    modify (set_timeFactor v) ;;
    modify (fun w =>
      set_timeFactor (if timeFactor w >? 0 then timeFactor w else 100) w) ;;
    modify (fun w =>
      set_timeFactor (if timeFactor w <? 1000 then timeFactor w else 100) w) ;;
    t <- get timeFactor ;;
    cout [Str "Time factor        : "; Num t; Str "%"; Endl]
  else ret tt.

Definition newline : string := String (ascii_of_nat 10) EmptyString.

(** [main]; the value returned is the exit status. *)
Definition main (fuel : nat) (argv : list string) : M Z :=
  if argc argv <? 3 then
    cout [Str usage] ;;
    ret 0
  else
    configure argv ;;
    memoryLatencyRead fuel ;;
    memoryLatencyWrite fuel ;;
    d <- get dummy ;;
    cout [Str (newline ++ "Please ignore: "); Num d; Endl] ;;
    ret 0.

End Program.

(** A complete run of the program on its command line. *)
Definition run (junk clock : nat -> Z) (avail : list event -> N) (fuel : nat)
    (argv : list string) : result Z :=
  main junk clock avail fuel argv initial_world.

(** ** Reference definitions used in the statements *)

(** Offset of the k-th access in an array of [N] bytes. *)
Definition cursor (N k : Z) : Z := (1088 * k) mod N.

(** The contents the initialisation loop gives an array of [N] bytes. *)
Definition pattern (N : Z) : list Z := (fun i => i mod 256) <$> seqZ 0 N.

(** [p[i]], with 0 outside the array. *)
Definition byte_at (p : list Z) (i : Z) : Z := default 0 (p !! Z.to_nat i).

(** Sum of [f k] over all [k] in [0, n). *)
Fixpoint sum_upto (f : Z -> Z) (n : nat) : Z :=
  match n with
  | O => 0
  | S n' => sum_upto f n' + f (Z.of_nat n')
  end.

(** The accumulator after adding [f 0], ..., [f (n-1)] to [d], one 64-bit
    addition at a time. *)
Fixpoint acc_upto (f : Z -> Z) (d : Z) (n : nat) : Z :=
  match n with
  | O => d
  | S n' => wrap64 (acc_upto f d n' + f (Z.of_nat n'))
  end.

Definition init_events (N : Z) : list event :=
  (fun i => EvStore i (i mod 256)) <$> seqZ 0 N.

Definition read_events (N : Z) (p : list Z) (n : Z) : list event :=
  (fun k => EvLoad (cursor N k) (byte_at p (cursor N k))) <$> seqZ 0 n.

Definition write_events (N n : Z) : list event :=
  (fun k => EvStore (cursor N k) (k mod 255)) <$> seqZ 0 n.

(** The array after the first [n] iterations of the timed write loop. *)
Fixpoint write_buf (N : Z) (p : list Z) (n : nat) : list Z :=
  match n with
  | O => p
  | S n' =>
      <[Z.to_nat (cursor N (Z.of_nat n')) := Z.of_nat n' mod 255]>
        (write_buf N p n')
  end.

Definition access_pos (e : event) : option Z :=
  match e with
  | EvLoad pos _ | EvStore pos _ => Some pos
  | _ => None
  end.

Definition report_chunks (operation : string) (totalTime nrOps : Z)
  : list chunk :=
  [Str "Total Time: "; Num totalTime; Str " nanoseconds for "; Num nrOps;
   Str " operations."; Endl; Str "Time per '"; Str operation; Str "': ";
   Ratio totalTime nrOps; Str " nanoseconds"; Endl].

(** The events of one benchmark: allocation, initialisation, and the timed
    loop between two readings of the clock. *)
Definition bench_events (clock : nat -> Z) (w : world) (timed : list event)
  : list event :=
  [EvNew (memUsage w)] ++ init_events (memUsage w)
  ++ [EvNow (clock (ticks w))] ++ timed
  ++ [EvNow (clock (S (ticks w))); EvDelete].

(** The accumulator after [n] rounds of the timed read loop over an
    initialised array of [N] bytes. *)
Definition read_acc (N d : Z) (n : nat) : Z :=
  acc_upto (fun k => cursor N k mod 256) d n.

Definition after_read (clock : nat -> Z) (w : world) : world :=
  let N := memUsage w in
  let n := nrTries_of (timeFactor w) in
  {| memUsage := N; diskUsage := diskUsage w; timeFactor := timeFactor w;
     verbose := verbose w;
     dummy := read_acc N (dummy w) (Z.to_nat n);
     stdout :=
       stdout w ++ [Str banner_read]
       ++ report_chunks "single byte read"
            (timeDiff (clock (ticks w)) (clock (S (ticks w)))) n;
     events := events w ++ bench_events clock w (read_events N (pattern N) n);
     ticks := S (S (ticks w)) |}.

Definition after_write (clock : nat -> Z) (w : world) : world :=
  let N := memUsage w in
  let n := nrTries_of (timeFactor w) in
  {| memUsage := N; diskUsage := diskUsage w; timeFactor := timeFactor w;
     verbose := verbose w;
     dummy := dummy w;
     stdout :=
       stdout w ++ [Str banner_write]
       ++ report_chunks "single byte write"
            (timeDiff (clock (ticks w)) (clock (S (ticks w)))) n;
     events := events w ++ bench_events clock w (write_events N n);
     ticks := S (S (ticks w)) |}.

(** The three clamps of [main], on the value in mebibytes or percent. *)
Definition clamp_mem (m : Z) : Z :=
  let m := if m >? 0 then m else 128 in
  if m <? 1024 * 1024 then m else 1024.

Definition clamp_disk (d : Z) : Z :=
  let d := if d >=? 16 then d else 16 in
  if d <? 1024 * 1024 then d else 1024.

Definition clamp_tf (t : Z) : Z :=
  let t := if t >? 0 then t else 100 in
  if t <? 1000 then t else 100.

(** The third argument: absent, or present with the value it parses to. *)
Definition third_arg (argv : list string) (ot : option Z) : Prop :=
  match ot with
  | None => argc argv < 4
  | Some t => 4 <= argc argv /\ stoul (nth 3 argv EmptyString) = Parsed t
  end.

Definition time_factor_line (ot : option Z) : list chunk :=
  match ot with
  | Some t => [Str "Time factor        : "; Num (clamp_tf t); Str "%"; Endl]
  | None => []
  end.

(** The state [configure] leaves when the arguments parse to [m], [d] and
    [ot]. *)
Definition configured (m d : Z) (ot : option Z) (w : world) : world :=
  {| memUsage := wrap64 (clamp_mem m * (1024 * 1024));
     diskUsage := wrap64 (clamp_disk d * (1024 * 1024));
     timeFactor := match ot with Some t => clamp_tf t | None => timeFactor w end;
     verbose := verbose w;
     dummy := dummy w;
     stdout :=
       stdout w
       ++ [Str "Memory usage in MiB: "; Num (clamp_mem m); Endl;
           Str "Disk   usage in MiB: "; Num (clamp_disk d); Endl]
       ++ time_factor_line ot;
     events := events w;
     ticks := ticks w |}.

Definition last_line (w : world) : list chunk :=
  [Str (newline ++ "Please ignore: "); Num (dummy w); Endl].

(** The state at exit of a run whose arguments parse to [m], [d], [ot] and
    whose two arrays are granted. *)
Definition final_world (clock : nat -> Z) (m d : Z) (ot : option Z) : world :=
  let w := after_write clock
             (after_read clock (configured m d ot initial_world)) in
  emit (last_line w) w.


(** An event that is an access stays inside an array of [N] bytes. *)
Definition in_bounds (N : Z) (e : event) : Prop :=
  match access_pos e with
  | Some pos => 0 <= pos < N
  | None => True
  end.

(** An event is an access inside an array of [N] bytes. *)
Definition access_within (N : Z) (e : event) : Prop :=
  match access_pos e with
  | Some pos => 0 <= pos < N
  | None => False
  end.

(** After [k] rounds of a timed loop: the clock was not read, the array has
    its size, the cursor is inside it, and [k] accesses, all inside it, were
    added to the log. *)
Definition loop_inv (N : Z) (es0 : list event) (tk : nat) (k : nat)
    (l : list Z * Z) (w : world) : Prop :=
  memUsage w = N
  /\ ticks w = tk
  /\ Z.of_nat (length (fst l)) = N
  /\ 0 <= snd l < N
  /\ exists es,
      events w = es0 ++ es /\ length es = k /\ Forall (access_within N) es.

(** A computation that ends, normally or not, with [dummy] as it found it. *)
Definition keeps_dummy {A} (m : M A) : Prop :=
  forall w, dummy (world_of (m w)) = dummy w.


(** ** Definitions for the further properties *)

(** The failure an escaping exception of [std::stoul] ends the run with. *)
Definition stoul_failure (r : stoul_result) : option failure :=
  match r with
  | Parsed _ => None
  | invalid_argument => Some BadArgument
  | out_of_range => Some BadRange
  end.

(** A monitor for the life of the arrays.  [live] is the size of the array
    that is allocated, if there is one.  A step is refused ([None]) for an
    allocation while an array is live, a deallocation without a live array,
    and an access that is not inside a live array. *)
Definition heap_step (live : option Z) (e : event) : option (option Z) :=
  match e, live with
  | EvNew n, None => Some (Some n)
  | EvNew _, Some _ => None
  | EvDelete, Some _ => Some None
  | EvDelete, None => None
  | EvNow _, _ => Some live
  | EvLoad pos _, Some n | EvStore pos _, Some n =>
      if (0 <=? pos) && (pos <? n) then Some live else None
  | EvLoad _ _, None | EvStore _ _, None => None
  end.

Fixpoint heap_run (live : option Z) (es : list event) : option (option Z) :=
  match es with
  | [] => Some live
  | e :: es' =>
      match heap_step live e with
      | Some live' => heap_run live' es'
      | None => None
      end
  end.

(** A computation that ends, normally or not, with the component [f] of the
    state as it found it. *)
Definition keeps {B A} (f : world -> B) (m : M A) : Prop :=
  forall w, f (world_of (m w)) = f w.



(** ** The model on small inputs *)

Example stoul_decimal : stoul "64" = Parsed 64.
Proof. reflexivity. Qed.

Example stoul_stops_at_non_digit : stoul "  +12abc" = Parsed 12.
Proof. reflexivity. Qed.

Example stoul_minus_one : stoul "-1" = Parsed (2 ^ 64 - 1).
Proof. reflexivity. Qed.

Example stoul_no_digit : stoul "MiB" = invalid_argument.
Proof. reflexivity. Qed.

Example stoul_too_large : stoul "18446744073709551616" = out_of_range.
Proof. reflexivity. Qed.

Example configure_clamps :
  configure ["fuxx"; "0"; "3"; "5000"]%string initial_world
  = Ok tt
      {| memUsage := 134217728; diskUsage := 16777216; timeFactor := 100;
         verbose := false; dummy := 0;
         stdout := [Str "Memory usage in MiB: "; Num 128; Endl;
                    Str "Disk   usage in MiB: "; Num 16; Endl;
                    Str "Time factor        : "; Num 100; Str "%"; Endl];
         events := []; ticks := 0 |}.
Proof. reflexivity. Qed.

Example configure_bad_argument :
  configure ["fuxx"; "70"; "x"]%string initial_world
  = Abort BadArgument
      {| memUsage := 70; diskUsage := 0; timeFactor := 100;
         verbose := false; dummy := 0;
         stdout := [Str "Memory usage in MiB: "; Num 70; Endl];
         events := []; ticks := 0 |}.
Proof. reflexivity. Qed.

(** Four rounds of each timed loop on an array of five bytes. *)
Example read_loop_5 :
  read_loop 1088 4 ([0; 1; 2; 3; 4], 0) (set_memUsage 5 initial_world)
  = Ok ([0; 1; 2; 3; 4], 2)
      (set_dummy 8
         (log [EvLoad 0 0; EvLoad 3 3; EvLoad 1 1; EvLoad 4 4]
            (set_memUsage 5 initial_world))).
Proof. reflexivity. Qed.

Example write_loop_5 :
  write_loop 1088 4 ([0; 1; 2; 3; 4], 0) (set_memUsage 5 initial_world)
  = Ok ([0; 2; 2; 1; 3], 2)
      (log [EvStore 0 0; EvStore 3 1; EvStore 1 2; EvStore 4 3]
         (set_memUsage 5 initial_world)).
Proof. reflexivity. Qed.

(** From offset 0 in five bytes the cursor needs 217 subtractions. *)
Example advance_needs_fuel :
  advance 216 0 (set_memUsage 5 initial_world)
  = Abort OutOfFuel (set_memUsage 5 initial_world)
  /\ advance 217 0 (set_memUsage 5 initial_world)
     = Ok 3 (set_memUsage 5 initial_world).
Proof. split; reflexivity. Qed.

(** An access outside the array aborts. *)
Example load_outside :
  load [0; 1; 2] 3 initial_world = Abort OutOfBounds initial_world.
Proof. reflexivity. Qed.

(** ** Arithmetic *)

Lemma wrap64_small z : 0 <= z < 2 ^ 64 -> wrap64 z = z.
Proof. intros H. unfold wrap64. now apply Z.mod_small. Qed.

Lemma wrap64_range z : 0 <= wrap64 z < 2 ^ 64.
Proof. unfold wrap64. apply Z.mod_pos_bound. lia. Qed.

Lemma wrap64_add_l a b : wrap64 (wrap64 a + b) = wrap64 (a + b).
Proof. unfold wrap64. apply Zplus_mod_idemp_l. Qed.

Lemma to_u8_land i : to_u8 (Z.land i 255) = i mod 256.
Proof.
  unfold to_u8. change 255 with (Z.ones 8).
  rewrite Z.land_ones by lia. change (2 ^ 8) with 256.
  apply Z.mod_mod. lia.
Qed.

Lemma to_u8_mod255 i : to_u8 (i mod 255) = i mod 255.
Proof.
  unfold to_u8. apply Z.mod_small.
  pose proof (Z.mod_pos_bound i 255). lia.
Qed.

Lemma cursor_range N k : 1 <= N -> 0 <= cursor N k < N.
Proof. intros H. unfold cursor. apply Z.mod_pos_bound. lia. Qed.

Lemma cursor_0 N : cursor N 0 = 0.
Proof. unfold cursor. now rewrite Z.mul_0_r, Zmod_0_l. Qed.

Lemma cursor_succ N k : 1 <= N -> (cursor N k + 1088) mod N = cursor N (k + 1).
Proof.
  intros H. unfold cursor.
  rewrite Zplus_mod_idemp_l. f_equal. lia.
Qed.

(** ** The monad and the state *)

Lemma bind_ok {A B} (m : M A) (k : A -> M B) w a w' :
  m w = Ok a w' -> bind m k w = k a w'.
Proof. intros H. unfold bind. now rewrite H. Qed.

Lemma bind_abort {A B} (m : M A) (k : A -> M B) w e w' :
  m w = Abort e w' -> bind m k w = Abort e w'.
Proof. intros H. unfold bind. now rewrite H. Qed.

Lemma log_log es1 es2 w : log es2 (log es1 w) = log (es1 ++ es2) w.
Proof. unfold log. simpl. f_equal. symmetry. apply app_assoc. Qed.

Lemma log_nil w : log [] w = w.
Proof. destruct w. unfold log. simpl. now rewrite app_nil_r. Qed.

(** Two states with the same components are equal. *)
Lemma world_ext (w1 w2 : world) :
  memUsage w1 = memUsage w2 -> diskUsage w1 = diskUsage w2 ->
  timeFactor w1 = timeFactor w2 -> verbose w1 = verbose w2 ->
  dummy w1 = dummy w2 -> stdout w1 = stdout w2 ->
  events w1 = events w2 -> ticks w1 = ticks w2 ->
  w1 = w2.
Proof. destruct w1, w2. simpl. intros. subst. reflexivity. Qed.

Ltac world_eq :=
  apply world_ext;
  cbn [memUsage diskUsage timeFactor verbose dummy stdout events ticks
       set_memUsage set_diskUsage set_timeFactor set_dummy emit log tick];
  try reflexivity.

(** ** The loops *)

(** The last iteration of a [for] loop can be split off. *)
Lemma for_loop_snoc_from {L} (body : Z -> L -> M L) (n : nat) :
  forall (i : Z) (l : L) (w : world),
    0 <= i -> i + Z.of_nat n < 2 ^ 64 ->
    for_loop (S n) i body l w
    = bind (for_loop n i body l) (body (i + Z.of_nat n)) w.
Proof.
  induction n as [|n IH]; intros i l w Hi Hn.
  - simpl. unfold bind, ret. rewrite Z.add_0_r.
    destruct (body i l w); reflexivity.
  - change (for_loop (S (S n)) i body l w)
      with (bind (body i l) (for_loop (S n) (wrap64 (i + 1)) body) w).
    change (for_loop (S n) i body l)
      with (bind (body i l) (for_loop n (wrap64 (i + 1)) body)).
    unfold bind.
    destruct (body i l w) as [l' w'|e w']; [|reflexivity].
    rewrite wrap64_small by lia.
    rewrite IH by lia.
    replace (i + 1 + Z.of_nat n) with (i + Z.of_nat (S n)) by lia.
    reflexivity.
Qed.

Lemma for_loop_snoc {L} (body : Z -> L -> M L) (n : nat) (l : L) (w : world) :
  Z.of_nat n < 2 ^ 64 ->
  for_loop (S n) 0 body l w
  = bind (for_loop n 0 body l) (body (Z.of_nat n)) w.
Proof. intros H. now rewrite for_loop_snoc_from by lia. Qed.

(** The wrap-around loop computes the remainder, given fuel for one round
    per subtraction. *)
Lemma wrap_around_mod (fuel : nat) :
  forall (pos : Z) (w : world),
    1 <= memUsage w -> 0 <= pos < 2 ^ 64 ->
    pos / memUsage w <= Z.of_nat fuel ->
    wrap_around fuel pos w = Ok (pos mod memUsage w) w.
Proof.
  induction fuel as [|fuel IH]; intros pos w HN Hpos Hq.
  - assert (pos < memUsage w).
    { destruct (Z_lt_le_dec pos (memUsage w)) as [|Hle]; [assumption|].
      assert (1 <= pos / memUsage w) by (apply Z.div_le_lower_bound; lia).
      lia. }
    simpl. destruct (Z.geb_spec pos (memUsage w)); [lia|].
    now rewrite Z.mod_small by lia.
  - simpl. destruct (Z.geb_spec pos (memUsage w)) as [Hge|Hlt].
    + rewrite wrap64_small by lia.
      assert (Hd : (pos - memUsage w) / memUsage w = pos / memUsage w - 1).
      { replace (pos - memUsage w) with (pos + (-1) * memUsage w) by lia.
        rewrite Z.div_add by lia. lia. }
      rewrite IH by lia.
      replace (pos - memUsage w) with (pos + (-1) * memUsage w) by lia.
      now rewrite Z.mod_add by lia.
    + now rewrite Z.mod_small by lia.
Qed.

(** With an empty array the wrap-around loop never ends. *)
Lemma wrap_around_diverges (fuel : nat) (pos : Z) (w : world) :
  memUsage w = 0 -> 0 <= pos < 2 ^ 64 ->
  wrap_around fuel pos w = Abort OutOfFuel w.
Proof.
  intros HN Hpos. induction fuel as [|fuel IH]; simpl; rewrite HN.
  - destruct (Z.geb_spec pos 0); [reflexivity|lia].
  - destruct (Z.geb_spec pos 0); [|lia].
    rewrite Z.sub_0_r, wrap64_small by lia.
    apply IH.
Qed.

Lemma advance_ok (fuel : nat) (pos : Z) (w : world) :
  1 <= memUsage w -> memUsage w + 1088 <= 2 ^ 64 ->
  0 <= pos < memUsage w -> (1088 <= fuel)%nat ->
  advance fuel pos w = Ok ((pos + 1088) mod memUsage w) w.
Proof.
  intros HN Hmax Hpos Hfuel. unfold advance.
  change (17 * 64) with 1088.
  rewrite wrap64_small by lia.
  apply wrap_around_mod; [lia|lia|].
  assert ((pos + 1088) / memUsage w < 1089); [|lia].
  apply Z.div_lt_upper_bound; nia.
Qed.

Lemma pattern_S (n : nat) :
  pattern (Z.of_nat (S n)) = pattern (Z.of_nat n) ++ [Z.of_nat n mod 256].
Proof. unfold pattern. now rewrite seqZ_S, fmap_app. Qed.

Lemma length_pattern (N : Z) : length (pattern N) = Z.to_nat N.
Proof. unfold pattern. now rewrite length_fmap, length_seqZ. Qed.

Lemma pattern_lookup (N i : Z) :
  0 <= i < N -> pattern N !! Z.to_nat i = Some (i mod 256).
Proof.
  intros H. unfold pattern. rewrite list_lookup_fmap.
  rewrite lookup_seqZ_lt by lia. simpl. do 2 f_equal. lia.
Qed.

Lemma byte_at_pattern (N i : Z) : 0 <= i < N -> byte_at (pattern N) i = i mod 256.
Proof. intros H. unfold byte_at. now rewrite pattern_lookup. Qed.

Lemma lookup_byte_at (p : list Z) (i : Z) :
  0 <= i < Z.of_nat (length p) -> p !! Z.to_nat i = Some (byte_at p i).
Proof.
  intros H. unfold byte_at.
  destruct (lookup_lt_is_Some_2 p (Z.to_nat i)) as [v Hv]; [lia|].
  now rewrite Hv.
Qed.

(** After [n] rounds the initialisation loop has written the first [n]
    cells. *)
Lemma init_steps (n : nat) :
  forall (p : list Z) (w : world),
    (n <= length p)%nat -> Z.of_nat (length p) <= 2 ^ 64 ->
    for_loop n 0 init_body p w
    = Ok (pattern (Z.of_nat n) ++ drop n p) (log (init_events (Z.of_nat n)) w).
Proof.
  induction n as [|n IH]; intros p w Hn Hmax.
  - simpl. unfold ret. now rewrite log_nil, drop_0.
  - rewrite for_loop_snoc by lia.
    erewrite bind_ok by (apply IH; lia).
    unfold init_body, store.
    rewrite length_app, length_pattern, length_drop, to_u8_land.
    destruct (Z.ltb_spec (Z.of_nat n)
                (Z.of_nat (Z.to_nat (Z.of_nat n) + (length p - n)))); [|lia].
    rewrite log_log. f_equal.
    + rewrite Nat2Z.id, insert_app_r_alt by (rewrite length_pattern; lia).
      rewrite length_pattern, Nat2Z.id, Nat.sub_diag.
      destruct (lookup_lt_is_Some_2 p n) as [x Hx]; [lia|].
      rewrite (drop_S _ _ _ Hx). simpl.
      now rewrite pattern_S, <- app_assoc.
    + f_equal. unfold init_events. now rewrite seqZ_S, fmap_app.
Qed.

Lemma init_loop_ok (p : list Z) (w : world) :
  Z.of_nat (length p) = memUsage w -> memUsage w < 2 ^ 64 ->
  init_loop p w = Ok (pattern (memUsage w)) (log (init_events (memUsage w)) w).
Proof.
  intros Hlen Hmax. unfold init_loop.
  erewrite bind_ok by reflexivity.
  rewrite init_steps by lia.
  rewrite drop_ge, app_nil_r by lia.
  now rewrite Z2Nat.id by lia.
Qed.

Lemma read_events_S (N : Z) (p : list Z) (n : nat) :
  read_events N p (Z.of_nat (S n))
  = read_events N p (Z.of_nat n)
    ++ [EvLoad (cursor N (Z.of_nat n)) (byte_at p (cursor N (Z.of_nat n)))].
Proof. unfold read_events. now rewrite seqZ_S, fmap_app. Qed.

Lemma write_events_S (N : Z) (n : nat) :
  write_events N (Z.of_nat (S n))
  = write_events N (Z.of_nat n)
    ++ [EvStore (cursor N (Z.of_nat n)) (Z.of_nat n mod 255)].
Proof. unfold write_events. now rewrite seqZ_S, fmap_app. Qed.

Lemma length_write_buf (N : Z) (p : list Z) (n : nat) :
  length (write_buf N p n) = length p.
Proof. induction n as [|n IH]; simpl; [reflexivity|]. now rewrite length_insert. Qed.

(** The state after [n] rounds of the timed read loop. *)
Lemma read_steps (fuel : nat) (p : list Z) (n : nat) :
  forall (w : world),
    1 <= memUsage w -> memUsage w + 1088 <= 2 ^ 64 ->
    Z.of_nat (length p) = memUsage w ->
    (1088 <= fuel)%nat -> Z.of_nat n < 2 ^ 64 ->
    for_loop n 0 (read_body fuel) (p, 0) w
    = Ok (p, cursor (memUsage w) (Z.of_nat n))
        (set_dummy
           (acc_upto (fun k => byte_at p (cursor (memUsage w) k)) (dummy w) n)
           (log (read_events (memUsage w) p (Z.of_nat n)) w)).
Proof.
  intros w HN Hmax Hlen Hfuel.
  induction n as [|n IH]; intros Hn.
  - simpl. unfold ret. rewrite cursor_0.
    f_equal. destruct w. unfold set_dummy, log. simpl. now rewrite app_nil_r.
  - rewrite for_loop_snoc by lia.
    erewrite bind_ok by (apply IH; lia).
    pose proof (cursor_range (memUsage w) (Z.of_nat n) HN) as Hc.
    unfold read_body.
    erewrite bind_ok
      by (unfold load; rewrite lookup_byte_at by lia; reflexivity).
    erewrite bind_ok by reflexivity.
    erewrite bind_ok by (apply advance_ok; simpl; lia).
    unfold ret. simpl memUsage.
    rewrite cursor_succ by lia.
    replace (Z.of_nat n + 1) with (Z.of_nat (S n)) by lia.
    f_equal. unfold set_dummy, log. simpl. f_equal.
    rewrite read_events_S. now rewrite app_assoc.
Qed.

(** The state after [n] rounds of the timed write loop. *)
Lemma write_steps (fuel : nat) (p : list Z) (n : nat) :
  forall (w : world),
    1 <= memUsage w -> memUsage w + 1088 <= 2 ^ 64 ->
    Z.of_nat (length p) = memUsage w ->
    (1088 <= fuel)%nat -> Z.of_nat n < 2 ^ 64 ->
    for_loop n 0 (write_body fuel) (p, 0) w
    = Ok (write_buf (memUsage w) p n, cursor (memUsage w) (Z.of_nat n))
        (log (write_events (memUsage w) (Z.of_nat n)) w).
Proof.
  intros w HN Hmax Hlen Hfuel.
  induction n as [|n IH]; intros Hn.
  - simpl. unfold ret. now rewrite cursor_0, log_nil.
  - rewrite for_loop_snoc by lia.
    erewrite bind_ok by (apply IH; lia).
    pose proof (cursor_range (memUsage w) (Z.of_nat n) HN) as Hc.
    unfold write_body.
    erewrite bind_ok.
    2:{ unfold store. rewrite length_write_buf, to_u8_mod255.
        destruct (Z.ltb_spec (cursor (memUsage w) (Z.of_nat n))
                    (Z.of_nat (length p))); [reflexivity|lia]. }
    erewrite bind_ok by (apply advance_ok; simpl; lia).
    unfold ret. simpl memUsage.
    rewrite cursor_succ by lia.
    replace (Z.of_nat n + 1) with (Z.of_nat (S n)) by lia.
    rewrite log_log, write_events_S. reflexivity.
Qed.

(** ** The two benchmarks *)

Lemma acc_upto_ext (f g : Z -> Z) (d : Z) (n : nat) :
  (forall k, 0 <= k < Z.of_nat n -> f k = g k) ->
  acc_upto f d n = acc_upto g d n.
Proof.
  induction n as [|n IH]; intros H; simpl; [reflexivity|].
  rewrite IH by (intros k Hk; apply H; lia).
  rewrite (H (Z.of_nat n)) by lia. reflexivity.
Qed.

(** Wrapping after every addition or once at the end gives the same
    accumulator. *)
Lemma acc_upto_sum (f : Z -> Z) (d : Z) (n : nat) :
  0 <= d < 2 ^ 64 -> acc_upto f d n = wrap64 (d + sum_upto f n).
Proof.
  intros Hd. induction n as [|n IH]; simpl.
  - now rewrite Z.add_0_r, wrap64_small.
  - rewrite IH, wrap64_add_l. f_equal. lia.
Qed.

Lemma read_acc_pattern (N d : Z) (n : nat) :
  1 <= N ->
  acc_upto (fun k => byte_at (pattern N) (cursor N k)) d n = read_acc N d n.
Proof.
  intros HN. apply acc_upto_ext. intros k _.
  apply byte_at_pattern. now apply cursor_range.
Qed.

Lemma nrTries_range (tf : Z) : 0 <= nrTries_of tf < 2 ^ 64.
Proof.
  unfold nrTries_of. pose proof (wrap64_range (300000000 * tf)) as H.
  split.
  - apply Z.div_pos; lia.
  - apply Z.div_lt_upper_bound; lia.
Qed.

Lemma length_new (junk : nat -> Z) (n : Z) :
  length (junk <$> seq 0 (Z.to_nat n)) = Z.to_nat n.
Proof. now rewrite length_fmap, length_seq. Qed.

(** The two ways [new] ends. *)
Lemma new_array_ok (junk : nat -> Z) (avail : list event -> N) (n : Z)
    (w : world) :
  n <= Z.of_N (avail (events w)) ->
  new_array junk avail n w
  = Ok (junk <$> seq 0 (Z.to_nat n)) (log [EvNew n] w).
Proof.
  intros H. unfold new_array.
  destruct (Z.leb_spec n (Z.of_N (avail (events w)))); [reflexivity|lia].
Qed.

Lemma new_array_refused (junk : nat -> Z) (avail : list event -> N) (n : Z)
    (w : world) :
  Z.of_N (avail (events w)) < n -> new_array junk avail n w = Abort BadAlloc w.
Proof.
  intros H. unfold new_array.
  destruct (Z.leb_spec n (Z.of_N (avail (events w)))); [lia|reflexivity].
Qed.

Lemma memoryLatencyRead_ok (junk clock : nat -> Z) (avail : list event -> N)
    (fuel : nat) (w : world) :
  1 <= memUsage w -> memUsage w + 1088 <= 2 ^ 64 -> (1088 <= fuel)%nat ->
  memUsage w <= Z.of_N (avail (events w)) ->
  memoryLatencyRead junk clock avail fuel w = Ok tt (after_read clock w).
Proof.
  intros HN Hmax Hfuel Havail.
  pose proof (nrTries_range (timeFactor w)) as Hn.
  unfold memoryLatencyRead.
  erewrite bind_ok by reflexivity.
  erewrite bind_ok by reflexivity.
  erewrite bind_ok by (apply new_array_ok; exact Havail).
  erewrite bind_ok by reflexivity.
  erewrite bind_ok
    by (apply init_loop_ok; rewrite ?length_new; cbn [memUsage log emit]; lia).
  erewrite bind_ok by reflexivity.
  erewrite bind_ok.
  2:{ unfold read_loop. apply read_steps;
        rewrite ?length_pattern;
        cbn [memUsage dummy timeFactor log emit tick]; lia. }
  erewrite bind_ok by reflexivity.
  erewrite bind_ok by reflexivity.
  unfold report.
  erewrite bind_ok by reflexivity.
  unfold cout, modify. f_equal.
  unfold after_read, bench_events, report_chunks. world_eq.
  - rewrite read_acc_pattern by lia. reflexivity.
  - now rewrite <- !app_assoc.
  - rewrite (Z2Nat.id (nrTries_of (timeFactor w))) by lia.
    now rewrite <- !app_assoc.
Qed.

Lemma memoryLatencyWrite_ok (junk clock : nat -> Z) (avail : list event -> N)
    (fuel : nat) (w : world) :
  1 <= memUsage w -> memUsage w + 1088 <= 2 ^ 64 -> (1088 <= fuel)%nat ->
  memUsage w <= Z.of_N (avail (events w)) ->
  memoryLatencyWrite junk clock avail fuel w = Ok tt (after_write clock w).
Proof.
  intros HN Hmax Hfuel Havail.
  pose proof (nrTries_range (timeFactor w)) as Hn.
  unfold memoryLatencyWrite.
  erewrite bind_ok by reflexivity.
  erewrite bind_ok by reflexivity.
  erewrite bind_ok by (apply new_array_ok; exact Havail).
  erewrite bind_ok by reflexivity.
  erewrite bind_ok
    by (apply init_loop_ok; rewrite ?length_new; cbn [memUsage log emit]; lia).
  erewrite bind_ok by reflexivity.
  erewrite bind_ok.
  2:{ unfold write_loop. apply write_steps;
        rewrite ?length_pattern;
        cbn [memUsage dummy timeFactor log emit tick]; lia. }
  erewrite bind_ok by reflexivity.
  erewrite bind_ok by reflexivity.
  unfold report.
  erewrite bind_ok by reflexivity.
  unfold cout, modify. f_equal.
  unfold after_write, bench_events, report_chunks. world_eq.
  - now rewrite <- !app_assoc.
  - rewrite (Z2Nat.id (nrTries_of (timeFactor w))) by lia.
    now rewrite <- !app_assoc.
Qed.

(** A benchmark whose array the allocator refuses ends with
    [std::bad_alloc] after its banner was sent to [std::cout]: nothing was
    allocated or accessed and the clock was not read. *)
Lemma memoryLatencyRead_refused (junk clock : nat -> Z)
    (avail : list event -> N) (fuel : nat) (w : world) :
  Z.of_N (avail (events w)) < memUsage w ->
  memoryLatencyRead junk clock avail fuel w
  = Abort BadAlloc (emit [Str banner_read] w).
Proof.
  intros H. unfold memoryLatencyRead.
  erewrite bind_ok by reflexivity.
  erewrite bind_ok by reflexivity.
  apply bind_abort. now apply new_array_refused.
Qed.

Lemma memoryLatencyWrite_refused (junk clock : nat -> Z)
    (avail : list event -> N) (fuel : nat) (w : world) :
  Z.of_N (avail (events w)) < memUsage w ->
  memoryLatencyWrite junk clock avail fuel w
  = Abort BadAlloc (emit [Str banner_write] w).
Proof.
  intros H. unfold memoryLatencyWrite.
  erewrite bind_ok by reflexivity.
  erewrite bind_ok by reflexivity.
  apply bind_abort. now apply new_array_refused.
Qed.

(** ** The arguments *)

Lemma clamp_mem_range (m : Z) : 1 <= clamp_mem m <= 1048575.
Proof.
  unfold clamp_mem. change (1024 * 1024) with 1048576.
  destruct (Z.gtb_spec m 0);
    [destruct (Z.ltb_spec m 1048576)|destruct (Z.ltb_spec 128 1048576)]; lia.
Qed.

Lemma clamp_disk_range (d : Z) : 16 <= clamp_disk d <= 1048575.
Proof.
  unfold clamp_disk. change (1024 * 1024) with 1048576.
  destruct (Z.geb_spec d 16);
    [destruct (Z.ltb_spec d 1048576)|destruct (Z.ltb_spec 16 1048576)]; lia.
Qed.

Lemma clamp_tf_range (t : Z) : 1 <= clamp_tf t <= 999.
Proof.
  unfold clamp_tf.
  destruct (Z.gtb_spec t 0);
    [destruct (Z.ltb_spec t 1000)|destruct (Z.ltb_spec 100 1000)]; lia.
Qed.

Lemma memUsage_configured (m d : Z) (ot : option Z) (w : world) :
  memUsage (configured m d ot w) = clamp_mem m * 1048576.
Proof.
  cbn [memUsage configured]. change (1024 * 1024) with 1048576.
  pose proof (clamp_mem_range m). apply wrap64_small. lia.
Qed.

Lemma stoul_arg_parsed (argv : list string) (i : nat) (v : Z) (w : world) :
  stoul (nth i argv EmptyString) = Parsed v -> stoul_arg argv i w = Ok v w.
Proof. intros H. unfold stoul_arg. now rewrite H. Qed.

Lemma configure_ok (argv : list string) (m d : Z) (ot : option Z) (w : world) :
  stoul (nth 1 argv EmptyString) = Parsed m ->
  stoul (nth 2 argv EmptyString) = Parsed d ->
  third_arg argv ot ->
  configure argv w = Ok tt (configured m d ot w).
Proof.
  intros H1 H2 H3. unfold configure.
  erewrite bind_ok by (apply stoul_arg_parsed; eassumption).
  do 5 (erewrite bind_ok by reflexivity).
  erewrite bind_ok by (apply stoul_arg_parsed; eassumption).
  do 7 (erewrite bind_ok by reflexivity).
  destruct ot as [t|]; cbn [third_arg] in H3.
  - destruct H3 as [H3 H4].
    destruct (Z.geb_spec (argc argv) 4); [|lia].
    erewrite bind_ok by (apply stoul_arg_parsed; eassumption).
    do 4 (erewrite bind_ok by reflexivity).
    unfold cout, modify. f_equal.
    unfold configured, time_factor_line, clamp_mem, clamp_disk, clamp_tf.
    world_eq. now rewrite <- !app_assoc.
  - destruct (Z.geb_spec (argc argv) 4); [lia|].
    unfold ret. f_equal.
    unfold configured, time_factor_line, clamp_mem, clamp_disk.
    world_eq. now rewrite <- !app_assoc.
Qed.

(** Conversely, [configure] succeeds only if its arguments parse. *)
Lemma configure_inv (argv : list string) (w w' : world) :
  configure argv w = Ok tt w' ->
  exists m d ot,
    stoul (nth 1 argv EmptyString) = Parsed m
    /\ stoul (nth 2 argv EmptyString) = Parsed d
    /\ third_arg argv ot
    /\ w' = configured m d ot w.
Proof.
  intros H.
  destruct (stoul (nth 1 argv EmptyString)) as [m| |] eqn:E1;
    try (unfold configure in H;
         erewrite bind_abort in H
           by (unfold stoul_arg; rewrite E1; reflexivity);
         discriminate).
  destruct (stoul (nth 2 argv EmptyString)) as [d| |] eqn:E2;
    try (unfold configure in H;
         erewrite bind_ok in H by (apply stoul_arg_parsed; eassumption);
         do 5 (erewrite bind_ok in H by reflexivity);
         erewrite bind_abort in H
           by (unfold stoul_arg; rewrite E2; reflexivity);
         discriminate).
  destruct (Z.geb_spec (argc argv) 4) as [Hge|Hlt].
  - destruct (stoul (nth 3 argv EmptyString)) as [t| |] eqn:E3.
    + exists m, d, (Some t). repeat split; try assumption.
      rewrite (configure_ok argv m d (Some t) w) in H
        by (cbn; auto).
      congruence.
    + unfold configure in H.
      erewrite bind_ok in H by (apply stoul_arg_parsed; eassumption).
      do 5 (erewrite bind_ok in H by reflexivity).
      erewrite bind_ok in H by (apply stoul_arg_parsed; eassumption).
      do 7 (erewrite bind_ok in H by reflexivity).
      destruct (Z.geb_spec (argc argv) 4); [|lia].
      erewrite bind_abort in H
        by (unfold stoul_arg; rewrite E3; reflexivity).
      discriminate.
    + unfold configure in H.
      erewrite bind_ok in H by (apply stoul_arg_parsed; eassumption).
      do 5 (erewrite bind_ok in H by reflexivity).
      erewrite bind_ok in H by (apply stoul_arg_parsed; eassumption).
      do 7 (erewrite bind_ok in H by reflexivity).
      destruct (Z.geb_spec (argc argv) 4); [|lia].
      erewrite bind_abort in H
        by (unfold stoul_arg; rewrite E3; reflexivity).
      discriminate.
  - exists m, d, None. repeat split; try assumption.
    rewrite (configure_ok argv m d None w) in H by (cbn; auto).
    congruence.
Qed.

(** Whatever the arguments, the memory usage [configure] sets is between
    1 MiB and 1048575 MiB; in particular [pos += 17*64] cannot wrap. *)
Lemma configure_memUsage_range (argv : list string) (w w' : world) :
  configure argv w = Ok tt w' ->
  1048576 <= memUsage w' <= 1048575 * 1048576
  /\ memUsage w' + 1088 <= 2 ^ 64.
Proof.
  intros H.
  destruct (configure_inv argv w w' H) as (m & d & ot & _ & _ & _ & ->).
  rewrite memUsage_configured. pose proof (clamp_mem_range m). lia.
Qed.

(** [std::stoul] returns a value of [unsigned long]. *)
Lemma digit_of_range (c : ascii) (d : Z) : digit_of c = Some d -> 0 <= d <= 9.
Proof.
  unfold digit_of.
  destruct (Z.leb_spec 48 (Z.of_nat (nat_of_ascii c)));
    destruct (Z.leb_spec (Z.of_nat (nat_of_ascii c)) 57);
    cbn; intros [= <-]; lia.
Qed.

Lemma read_digits_nonneg (s : string) :
  forall acc v,
    (forall a, acc = Some a -> 0 <= a) ->
    read_digits s acc = Some v -> 0 <= v.
Proof.
  induction s as [|c s IH]; intros acc v Hacc H; cbn in H.
  - now apply Hacc.
  - destruct (digit_of c) as [d|] eqn:Ed; [|now apply Hacc].
    apply (IH _ _) in H; [assumption|].
    intros a [= <-]. apply digit_of_range in Ed.
    destruct acc as [a0|]; cbn; [specialize (Hacc a0 eq_refl)|]; lia.
Qed.

Lemma stoul_range (s : string) (v : Z) :
  stoul s = Parsed v -> 0 <= v < 2 ^ 64.
Proof.
  unfold stoul. destruct (strip_sign (skip_spaces s)) as [neg body].
  destruct (read_digits body None) as [x|] eqn:E; [|discriminate].
  destruct (Z.ltb_spec x (2 ^ 64)); [|discriminate].
  intros [= <-]. destruct neg; [apply wrap64_range|].
  split; [|assumption].
  apply (read_digits_nonneg body None x); [discriminate|assumption].
Qed.

(** ** The whole run *)

(** A run whose arguments parse and whose two arrays the allocator grants. *)
Lemma main_ok (junk clock : nat -> Z) (avail : list event -> N) (fuel : nat)
    (argv : list string) (m d : Z) (ot : option Z) :
  3 <= argc argv ->
  stoul (nth 1 argv EmptyString) = Parsed m ->
  stoul (nth 2 argv EmptyString) = Parsed d ->
  third_arg argv ot ->
  (1088 <= fuel)%nat ->
  (forall es, clamp_mem m * 1048576 <= Z.of_N (avail es)) ->
  run junk clock avail fuel argv = Ok 0 (final_world clock m d ot).
Proof.
  intros Hargc H1 H2 H3 Hfuel Havail. unfold run, main.
  destruct (Z.ltb_spec (argc argv) 3); [lia|].
  pose proof (clamp_mem_range m) as Hm.
  erewrite bind_ok by (apply configure_ok; eassumption).
  erewrite bind_ok.
  2:{ apply memoryLatencyRead_ok; rewrite ?memUsage_configured;
        try lia; apply Havail. }
  erewrite bind_ok.
  2:{ apply memoryLatencyWrite_ok; cbn [memUsage after_read];
        rewrite ?memUsage_configured; try lia; apply Havail. }
  erewrite bind_ok by reflexivity.
  erewrite bind_ok by reflexivity.
  reflexivity.
Qed.

(** The same, from the state [configure] leaves. *)
Lemma main_configured (junk clock : nat -> Z) (avail : list event -> N)
    (fuel : nat) (argv : list string) (w0 : world) :
  3 <= argc argv ->
  configure argv initial_world = Ok tt w0 ->
  (forall es, memUsage w0 <= Z.of_N (avail es)) ->
  (1088 <= fuel)%nat ->
  exists m d ot,
    w0 = configured m d ot initial_world
    /\ third_arg argv ot
    /\ run junk clock avail fuel argv = Ok 0 (final_world clock m d ot).
Proof.
  intros Hargc Hc Havail Hfuel.
  destruct (configure_inv argv _ w0 Hc) as (m & d & ot & H1 & H2 & H3 & ->).
  exists m, d, ot. split; [reflexivity|]. split; [assumption|].
  apply main_ok; try assumption.
  intros es. rewrite <- (memUsage_configured m d ot initial_world).
  apply Havail.
Qed.

(** A run whose arguments parse but whose first array is refused ends in
    the read benchmark; one whose second array is refused ends in the write
    benchmark, after the read benchmark has run to its end. *)
Lemma main_refused_1 (junk clock : nat -> Z) (avail : list event -> N)
    (fuel : nat) (argv : list string) (w0 : world) :
  3 <= argc argv ->
  configure argv initial_world = Ok tt w0 ->
  Z.of_N (avail (events w0)) < memUsage w0 ->
  run junk clock avail fuel argv = Abort BadAlloc (emit [Str banner_read] w0).
Proof.
  intros Hargc Hc Havail. unfold run, main.
  destruct (Z.ltb_spec (argc argv) 3); [lia|].
  erewrite bind_ok by exact Hc.
  apply bind_abort. now apply memoryLatencyRead_refused.
Qed.

Lemma main_refused_2 (junk clock : nat -> Z) (avail : list event -> N)
    (fuel : nat) (argv : list string) (w0 : world) :
  3 <= argc argv ->
  configure argv initial_world = Ok tt w0 ->
  (1088 <= fuel)%nat ->
  memUsage w0 <= Z.of_N (avail (events w0)) ->
  Z.of_N (avail (events (after_read clock w0))) < memUsage w0 ->
  run junk clock avail fuel argv
  = Abort BadAlloc (emit [Str banner_write] (after_read clock w0)).
Proof.
  intros Hargc Hc Hfuel Hav1 Hav2. unfold run, main.
  destruct (Z.ltb_spec (argc argv) 3); [lia|].
  pose proof (configure_memUsage_range argv _ _ Hc) as [Hr Hmax].
  erewrite bind_ok by exact Hc.
  erewrite bind_ok by (apply memoryLatencyRead_ok; try assumption; lia).
  apply bind_abort. now apply memoryLatencyWrite_refused.
Qed.

(** A run whose arguments parse and whose second array is granted too. *)
Lemma main_granted (junk clock : nat -> Z) (avail : list event -> N)
    (fuel : nat) (argv : list string) (w0 : world) :
  3 <= argc argv ->
  configure argv initial_world = Ok tt w0 ->
  (1088 <= fuel)%nat ->
  memUsage w0 <= Z.of_N (avail (events w0)) ->
  memUsage w0 <= Z.of_N (avail (events (after_read clock w0))) ->
  run junk clock avail fuel argv
  = Ok 0 (emit (last_line (after_write clock (after_read clock w0)))
            (after_write clock (after_read clock w0))).
Proof.
  intros Hargc Hc Hfuel Hav1 Hav2. unfold run, main.
  destruct (Z.ltb_spec (argc argv) 3); [lia|].
  pose proof (configure_memUsage_range argv _ _ Hc) as [Hr Hmax].
  erewrite bind_ok by exact Hc.
  erewrite bind_ok by (apply memoryLatencyRead_ok; try assumption; lia).
  erewrite bind_ok
    by (apply memoryLatencyWrite_ok; cbn [memUsage after_read];
        try assumption; lia).
  erewrite bind_ok by reflexivity.
  erewrite bind_ok by reflexivity.
  reflexivity.
Qed.

(** ** Safety of the accesses, for every array size *)

Lemma access_within_in_bounds (N : Z) (e : event) :
  access_within N e -> in_bounds N e.
Proof. unfold access_within, in_bounds. destruct (access_pos e); tauto. Qed.

(** An invariant of the locals and the state, indexed by the number of
    rounds made, that every round carries one step further is carried to the
    end by the loop, and the loop does not abort. *)
Lemma for_loop_inv {L} (I : nat -> L -> world -> Prop) (body : Z -> L -> M L) :
  (forall k i l w,
      I k l w -> exists l' w', body i l w = Ok l' w' /\ I (S k) l' w') ->
  forall n k i l w,
    I k l w ->
    exists l' w', for_loop n i body l w = Ok l' w' /\ I (k + n)%nat l' w'.
Proof.
  intros Hbody. induction n as [|n IH]; intros k i l w HI.
  - exists l, w. rewrite Nat.add_0_r. split; [reflexivity|assumption].
  - destruct (Hbody k i l w HI) as (l1 & w1 & E1 & HI1).
    destruct (IH (S k) (wrap64 (i + 1)) l1 w1 HI1) as (l2 & w2 & E2 & HI2).
    exists l2, w2. split.
    + simpl. erewrite bind_ok by eassumption. assumption.
    + now rewrite Nat.add_succ_r.
Qed.

(** Advancing the cursor ends within 1088 subtractions and leaves it inside
    the array, also when the addition of the stride wraps. *)
Lemma advance_safe (fuel : nat) (pos : Z) (w : world) :
  1 <= memUsage w -> 0 <= pos < memUsage w -> (1088 <= fuel)%nat ->
  exists pos',
    advance fuel pos w = Ok pos' w /\ 0 <= pos' < memUsage w.
Proof.
  intros HN Hpos Hfuel.
  exists (wrap64 (pos + 17 * 64) mod memUsage w). split.
  - unfold advance.
    pose proof (wrap64_range (pos + 17 * 64)) as Hr.
    apply wrap_around_mod; [lia|lia|].
    assert (wrap64 (pos + 17 * 64) / memUsage w < 1089); [|lia].
    apply Z.div_lt_upper_bound; [lia|].
    assert (wrap64 (pos + 17 * 64) <= pos + 17 * 64); [|nia].
    unfold wrap64. apply Z.mod_le; lia.
  - apply Z.mod_pos_bound. lia.
Qed.

Lemma loop_inv_snoc (N : Z) (es0 es : list event) (e : event) (k : nat) :
  length es = k -> Forall (access_within N) es -> access_within N e ->
  (es0 ++ es) ++ [e] = es0 ++ (es ++ [e])
  /\ length (es ++ [e]) = S k
  /\ Forall (access_within N) (es ++ [e]).
Proof.
  intros Hlen Hall He. split; [now rewrite app_assoc|]. split.
  - rewrite length_app. simpl. lia.
  - apply Forall_app. split; [assumption|]. now repeat constructor.
Qed.

Lemma read_body_inv (fuel : nat) (N : Z) (es0 : list event) (tk : nat) :
  1 <= N -> (1088 <= fuel)%nat ->
  forall k i l w,
    loop_inv N es0 tk k l w ->
    exists l' w',
      read_body fuel i l w = Ok l' w' /\ loop_inv N es0 tk (S k) l' w'.
Proof.
  intros HN Hfuel k i [p pos] w (HM & Htk & Hlen & Hpos & es & Hes & Hk & Hall).
  cbn [fst snd] in Hlen, Hpos.
  unfold read_body.
  erewrite bind_ok
    by (unfold load; rewrite lookup_byte_at by lia; reflexivity).
  erewrite bind_ok by reflexivity.
  edestruct (advance_safe fuel pos) as (pos' & E & Hpos');
    [| |eassumption|erewrite bind_ok by exact E].
  - cbn [memUsage set_dummy log]. lia.
  - cbn [memUsage set_dummy log]. lia.
  - eexists _, _. split; [reflexivity|].
    cbn [memUsage set_dummy log] in Hpos'.
    repeat split; cbn [fst snd memUsage set_dummy log events ticks]; try lia.
    exists (es ++ [EvLoad pos (byte_at p pos)]). rewrite Hes.
    apply loop_inv_snoc; assumption.
Qed.

Lemma write_body_inv (fuel : nat) (N : Z) (es0 : list event) (tk : nat) :
  1 <= N -> (1088 <= fuel)%nat ->
  forall k i l w,
    loop_inv N es0 tk k l w ->
    exists l' w',
      write_body fuel i l w = Ok l' w' /\ loop_inv N es0 tk (S k) l' w'.
Proof.
  intros HN Hfuel k i [p pos] w (HM & Htk & Hlen & Hpos & es & Hes & Hk & Hall).
  cbn [fst snd] in Hlen, Hpos.
  unfold write_body.
  erewrite bind_ok.
  2:{ unfold store.
      destruct (Z.ltb_spec pos (Z.of_nat (length p))); [reflexivity|lia]. }
  edestruct (advance_safe fuel pos) as (pos' & E & Hpos');
    [| |eassumption|erewrite bind_ok by exact E].
  - cbn [memUsage log]. lia.
  - cbn [memUsage log]. lia.
  - eexists _, _. split; [reflexivity|].
    cbn [memUsage log] in Hpos'.
    repeat split; cbn [fst snd memUsage log events ticks];
      rewrite ?length_insert; try lia.
    exists (es ++ [EvStore pos (to_u8 (i mod 255))]). rewrite Hes.
    apply loop_inv_snoc; assumption.
Qed.

Lemma init_events_in_bounds (N : Z) : Forall (in_bounds N) (init_events N).
Proof.
  unfold init_events. apply Forall_fmap, Forall_forall.
  intros i Hi. apply elem_of_seqZ in Hi.
  unfold in_bounds. cbn. lia.
Qed.

Lemma loop_inv_start (N : Z) (p : list Z) (w : world) :
  1 <= N -> memUsage w = N -> Z.of_nat (length p) = N ->
  loop_inv N (events w) (ticks w) 0 (p, 0) w.
Proof.
  intros HN HM Hlen. repeat split; cbn [fst snd]; try lia.
  exists []. repeat split; [now rewrite app_nil_r|constructor].
Qed.

Lemma bench_events_in_bounds (clock : nat -> Z) (w : world)
    (timed : list event) :
  Forall (access_within (memUsage w)) timed ->
  Forall (in_bounds (memUsage w)) (bench_events clock w timed).
Proof.
  intros H. unfold bench_events.
  repeat (apply Forall_app; split);
    try apply init_events_in_bounds; try (repeat constructor).
  eapply Forall_impl; [exact H|]. apply access_within_in_bounds.
Qed.

(** A benchmark whose array is granted runs to its end, for every size of
    the array; the timed loop makes [nrTries] accesses, all inside the
    array. *)
Lemma memoryLatencyRead_safe (junk clock : nat -> Z)
    (avail : list event -> N) (fuel : nat) (w : world) :
  1 <= memUsage w < 2 ^ 64 -> (1088 <= fuel)%nat ->
  memUsage w <= Z.of_N (avail (events w)) ->
  exists w' timed,
    memoryLatencyRead junk clock avail fuel w = Ok tt w'
    /\ events w' = events w ++ bench_events clock w timed
    /\ length timed = Z.to_nat (nrTries_of (timeFactor w))
    /\ Forall (access_within (memUsage w)) timed.
Proof.
  intros HN Hfuel Havail. unfold memoryLatencyRead.
  do 2 (erewrite bind_ok by reflexivity).
  erewrite bind_ok by (apply new_array_ok; exact Havail).
  erewrite bind_ok by reflexivity.
  erewrite bind_ok
    by (apply init_loop_ok; rewrite ?length_new; cbn [memUsage log emit]; lia).
  erewrite bind_ok by reflexivity.
  unfold read_loop.
  match goal with
  | |- context [bind (for_loop ?n 0 _ ?l) _ ?w1] =>
      destruct (for_loop_inv (loop_inv (memUsage w) (events w1) (ticks w1)) _
                  (read_body_inv fuel (memUsage w) (events w1) (ticks w1)
                     ltac:(lia) Hfuel) n 0%nat 0 l w1)
        as ([p' pos'] & w' & E & HM & Htk & Hlen & Hpos & es & Hes & Hk & Hall);
        [|erewrite bind_ok by exact E]
  end.
  - apply loop_inv_start; [lia|reflexivity|].
    rewrite length_pattern. cbn [memUsage log emit]. lia.
  - do 2 (erewrite bind_ok by reflexivity).
    unfold report. erewrite bind_ok by reflexivity.
    eexists _, es. split; [reflexivity|].
    cbn [events emit log tick memUsage timeFactor ticks] in *.
    split; [|split]; try assumption.
    rewrite Hes, Htk. unfold bench_events. now rewrite <- !app_assoc.
Qed.

Lemma memoryLatencyWrite_safe (junk clock : nat -> Z)
    (avail : list event -> N) (fuel : nat) (w : world) :
  1 <= memUsage w < 2 ^ 64 -> (1088 <= fuel)%nat ->
  memUsage w <= Z.of_N (avail (events w)) ->
  exists w' timed,
    memoryLatencyWrite junk clock avail fuel w = Ok tt w'
    /\ events w' = events w ++ bench_events clock w timed
    /\ length timed = Z.to_nat (nrTries_of (timeFactor w))
    /\ Forall (access_within (memUsage w)) timed.
Proof.
  intros HN Hfuel Havail. unfold memoryLatencyWrite.
  do 2 (erewrite bind_ok by reflexivity).
  erewrite bind_ok by (apply new_array_ok; exact Havail).
  erewrite bind_ok by reflexivity.
  erewrite bind_ok
    by (apply init_loop_ok; rewrite ?length_new; cbn [memUsage log emit]; lia).
  erewrite bind_ok by reflexivity.
  unfold write_loop.
  match goal with
  | |- context [bind (for_loop ?n 0 _ ?l) _ ?w1] =>
      destruct (for_loop_inv (loop_inv (memUsage w) (events w1) (ticks w1)) _
                  (write_body_inv fuel (memUsage w) (events w1) (ticks w1)
                     ltac:(lia) Hfuel) n 0%nat 0 l w1)
        as ([p' pos'] & w' & E & HM & Htk & Hlen & Hpos & es & Hes & Hk & Hall);
        [|erewrite bind_ok by exact E]
  end.
  - apply loop_inv_start; [lia|reflexivity|].
    rewrite length_pattern. cbn [memUsage log emit]. lia.
  - do 2 (erewrite bind_ok by reflexivity).
    unfold report. erewrite bind_ok by reflexivity.
    eexists _, es. split; [reflexivity|].
    cbn [events emit log tick memUsage timeFactor ticks] in *.
    split; [|split]; try assumption.
    rewrite Hes, Htk. unfold bench_events. now rewrite <- !app_assoc.
Qed.

(** ** What leaves the accumulator alone *)

Lemma keeps_ret {A} (a : A) : keeps_dummy (ret a).
Proof. intros w. reflexivity. Qed.

Lemma keeps_bind {A B} (m : M A) (k : A -> M B) :
  keeps_dummy m -> (forall a, keeps_dummy (k a)) -> keeps_dummy (bind m k).
Proof.
  intros Hm Hk w. unfold bind. specialize (Hm w).
  destruct (m w) as [a w'|e w']; cbn [world_of] in *.
  - now rewrite Hk.
  - assumption.
Qed.

Lemma keeps_get {A} (f : world -> A) : keeps_dummy (get f).
Proof. intros w. reflexivity. Qed.

Lemma keeps_modify (f : world -> world) :
  (forall w, dummy (f w) = dummy w) -> keeps_dummy (modify f).
Proof. intros H w. apply H. Qed.

Lemma keeps_cout (cs : list chunk) : keeps_dummy (cout cs).
Proof. intros w. reflexivity. Qed.

Lemma keeps_for_loop {L} (body : Z -> L -> M L) (n : nat) :
  (forall i l, keeps_dummy (body i l)) ->
  forall i l, keeps_dummy (for_loop n i body l).
Proof.
  intros Hbody. induction n as [|n IH]; intros i l.
  - apply keeps_ret.
  - simpl. apply keeps_bind; [apply Hbody|]. intros l'. apply IH.
Qed.

Lemma keeps_wrap_around (fuel : nat) :
  forall pos, keeps_dummy (wrap_around fuel pos).
Proof.
  induction fuel as [|fuel IH]; intros pos w; simpl;
    destruct (pos >=? memUsage w); try reflexivity.
  apply IH.
Qed.

Lemma keeps_store (p : list Z) (pos v : Z) : keeps_dummy (store p pos v).
Proof.
  intros w. unfold store.
  destruct (pos <? Z.of_nat (length p)); reflexivity.
Qed.

Lemma keeps_timeNow (clock : nat -> Z) : keeps_dummy (timeNow clock).
Proof. intros w. reflexivity. Qed.

Lemma keeps_new_array (junk : nat -> Z) (avail : list event -> N) (n : Z) :
  keeps_dummy (new_array junk avail n).
Proof.
  intros w. unfold new_array.
  destruct (n <=? Z.of_N (avail (events w))); reflexivity.
Qed.

Lemma keeps_write_body (fuel : nat) (i : Z) (l : list Z * Z) :
  keeps_dummy (write_body fuel i l).
Proof.
  destruct l as [p pos]. unfold write_body.
  apply keeps_bind; [apply keeps_store|]. intros p'.
  apply keeps_bind; [apply keeps_wrap_around|]. intros pos'.
  apply keeps_ret.
Qed.

Lemma keeps_memoryLatencyWrite (junk clock : nat -> Z)
    (avail : list event -> N) (fuel : nat) :
  keeps_dummy (memoryLatencyWrite junk clock avail fuel).
Proof.
  unfold memoryLatencyWrite, init_loop, init_body, write_loop, delete_array,
    report.
  repeat first
    [ apply keeps_ret | apply keeps_cout | apply keeps_get
    | apply keeps_store | apply keeps_timeNow | apply keeps_new_array
    | apply keeps_write_body
    | apply keeps_for_loop; intros
    | apply keeps_modify; intros; reflexivity
    | apply keeps_bind; [|intros] ].
Qed.

(** ** The timed loops, for every iteration count *)

Lemma read_loop_ok (fuel : nat) (N nrOps : Z) (p : list Z) (w : world) :
  1 <= N -> N + 1088 <= 2 ^ 64 -> memUsage w = N ->
  Z.of_nat (length p) = N -> 0 <= nrOps < 2 ^ 64 -> (1088 <= fuel)%nat ->
  read_loop fuel nrOps (p, 0) w
  = Ok (p, cursor N nrOps)
      (set_dummy
         (acc_upto (fun k => byte_at p (cursor N k)) (dummy w) (Z.to_nat nrOps))
         (log (read_events N p nrOps) w)).
Proof.
  intros HN Hmax HM Hlen Hn Hfuel. subst N. unfold read_loop.
  rewrite read_steps by lia. now rewrite Z2Nat.id by lia.
Qed.

Lemma write_loop_ok (fuel : nat) (N nrOps : Z) (p : list Z) (w : world) :
  1 <= N -> N + 1088 <= 2 ^ 64 -> memUsage w = N ->
  Z.of_nat (length p) = N -> 0 <= nrOps < 2 ^ 64 -> (1088 <= fuel)%nat ->
  write_loop fuel nrOps (p, 0) w
  = Ok (write_buf N p (Z.to_nat nrOps), cursor N nrOps)
      (log (write_events N nrOps) w).
Proof.
  intros HN Hmax HM Hlen Hn Hfuel. subst N. unfold write_loop.
  rewrite write_steps by lia. now rewrite Z2Nat.id by lia.
Qed.

Lemma length_read_events (N : Z) (p : list Z) (n : Z) :
  length (read_events N p n) = Z.to_nat n.
Proof. unfold read_events. now rewrite length_fmap, length_seqZ. Qed.

Lemma length_write_events (N n : Z) : length (write_events N n) = Z.to_nat n.
Proof. unfold write_events. now rewrite length_fmap, length_seqZ. Qed.

Lemma read_events_lookup (N : Z) (p : list Z) (n k : Z) :
  0 <= k < n ->
  read_events N p n !! Z.to_nat k
  = Some (EvLoad (cursor N k) (byte_at p (cursor N k))).
Proof.
  intros H. unfold read_events.
  rewrite list_lookup_fmap, lookup_seqZ_lt by lia.
  cbn. now rewrite Z2Nat.id by lia.
Qed.

Lemma write_events_lookup (N n k : Z) :
  0 <= k < n ->
  write_events N n !! Z.to_nat k = Some (EvStore (cursor N k) (k mod 255)).
Proof.
  intros H. unfold write_events.
  rewrite list_lookup_fmap, lookup_seqZ_lt by lia.
  cbn. now rewrite Z2Nat.id by lia.
Qed.

(** The cell written last holds the last iteration index modulo 255. *)
Lemma write_buf_last (N n : Z) (p : list Z) :
  1 <= N -> Z.of_nat (length p) = N -> 1 <= n ->
  write_buf N p (Z.to_nat n) !! Z.to_nat (cursor N (n - 1))
  = Some ((n - 1) mod 255).
Proof.
  intros HN Hlen Hn.
  replace (Z.to_nat n) with (S (Z.to_nat (n - 1))) by lia.
  cbn [write_buf]. rewrite Z2Nat.id by lia.
  apply list_lookup_insert_eq. rewrite length_write_buf.
  pose proof (cursor_range N (n - 1) HN). lia.
Qed.

(** ** Facts about complete runs *)

(** What the write loop does for every size and iteration count: round [k]
    stores [k mod 255], and the cell of the last write holds
    [(nrOps - 1) mod 255] when the loop is over. *)
Lemma write_loop_stores_mod_255 (fuel : nat) (N nrOps : Z) (p : list Z)
    (w : world) :
  1 <= N -> N + 1088 <= 2 ^ 64 -> memUsage w = N ->
  Z.of_nat (length p) = N -> 1 <= nrOps < 2 ^ 64 -> (1088 <= fuel)%nat ->
  exists p' w' es,
    write_loop fuel nrOps (p, 0) w = Ok (p', (1088 * nrOps) mod N) w'
    /\ events w' = events w ++ es
    /\ (forall k, 0 <= k < nrOps ->
          es !! Z.to_nat k = Some (EvStore ((1088 * k) mod N) (k mod 255)))
    /\ p' !! Z.to_nat ((1088 * (nrOps - 1)) mod N) = Some ((nrOps - 1) mod 255).
Proof.
  intros HN Hmax HM Hlen Hn Hfuel.
  eexists _, _, _. split; [apply write_loop_ok; eassumption || lia|].
  split; [reflexivity|]. split.
  - intros k Hk. now apply write_events_lookup.
  - now apply write_buf_last; try lia.
Qed.

Lemma final_world_events (clock : nat -> Z) (m d : Z) (ot : option Z) :
  events (final_world clock m d ot)
  = bench_events clock (configured m d ot initial_world)
      (read_events (memUsage (configured m d ot initial_world))
         (pattern (memUsage (configured m d ot initial_world)))
         (nrTries_of (timeFactor (configured m d ot initial_world))))
    ++ bench_events clock (after_read clock (configured m d ot initial_world))
         (write_events (memUsage (configured m d ot initial_world))
            (nrTries_of (timeFactor (configured m d ot initial_world)))).
Proof. reflexivity. Qed.

Lemma read_events_within (N : Z) (p : list Z) (n : Z) :
  1 <= N -> Forall (access_within N) (read_events N p n).
Proof.
  intros HN. unfold read_events. apply Forall_fmap, Forall_forall.
  intros k _. apply (cursor_range N k HN).
Qed.

Lemma write_events_within (N n : Z) :
  1 <= N -> Forall (access_within N) (write_events N n).
Proof.
  intros HN. unfold write_events. apply Forall_fmap, Forall_forall.
  intros k _. apply (cursor_range N k HN).
Qed.

Lemma nrTries_resolved (tf : Z) :
  1 <= tf <= 999 -> nrTries_of tf = 300000000 * tf / 100.
Proof. intros H. unfold nrTries_of. now rewrite wrap64_small by lia. Qed.

(** Without the bound [1 <= memUsage] the cursor cannot be wrapped: the loop
    of [advance] does not end on an empty array. *)
Lemma advance_empty_array (fuel : nat) (pos : Z) (w : world) :
  memUsage w = 0 -> 0 <= pos -> pos + 1088 < 2 ^ 64 ->
  advance fuel pos w = Abort OutOfFuel w.
Proof.
  intros HN H0 Hmax. unfold advance. apply wrap_around_diverges; [assumption|].
  apply wrap64_range.
Qed.


Lemma init_events_within (N : Z) : Forall (access_within N) (init_events N).
Proof.
  unfold init_events. apply Forall_fmap, Forall_forall.
  intros i Hi. apply elem_of_seqZ in Hi.
  unfold access_within. cbn. lia.
Qed.

(** ** Runs with different clocks *)






(** * The properties of the specification *)

(** C1 (the code differs).  The timed loop of [memoryLatencyWrite] stores
    [i % 0xff], the iteration index modulo 255, not modulo 256.  Run as
    [fuxx 1 16] the loop has 1 MiB and 300,000,000 rounds: round 255 stores 0
    at offset 277440, where [255 mod 256] is 255, and after the loop the cell
    of the last write, offset 310208, holds 149, where
    [(300000000 - 1) mod 256] is 255. *)
Theorem C1_write_stores_index_mod_255 (fuel : nat) (w : world) :
  memUsage w = 1048576 -> (1088 <= fuel)%nat ->
  exists p' w' es,
    write_loop fuel 300000000 (pattern 1048576, 0) w
    = Ok (p', (1088 * 300000000) mod 1048576) w'
    /\ events w' = events w ++ es
    /\ es !! 255%nat = Some (EvStore 277440 0)
    /\ (1088 * 299999999) mod 1048576 = 310208
    /\ p' !! Z.to_nat 310208 = Some 149
    /\ 255 mod 256 = 255
    /\ (300000000 - 1) mod 256 = 255.
Proof.
  intros HM Hfuel.
  exists (write_buf 1048576 (pattern 1048576) (Z.to_nat 300000000)).
  exists (log (write_events 1048576 300000000) w).
  exists (write_events 1048576 300000000).
  split; [|split; [|split; [|split; [|split; [|split]]]]].
  - apply write_loop_ok; rewrite ?length_pattern; lia.
  - reflexivity.
  - change 255%nat with (Z.to_nat 255).
    rewrite write_events_lookup by lia. reflexivity.
  - reflexivity.
  - assert (E : cursor 1048576 (300000000 - 1) = 310208) by reflexivity.
    rewrite <- E.
    rewrite write_buf_last by (rewrite ?length_pattern; lia).
    reflexivity.
  - reflexivity.
  - reflexivity.
Qed.

Lemma C1_write_stores_index_mod_255_witness :
  exists w : world,
    memUsage w = 1048576 /\ (1088 <= 1088)%nat
    /\ exists p' w' es,
        write_loop 1088 300000000 (pattern 1048576, 0) w
        = Ok (p', (1088 * 300000000) mod 1048576) w'
        /\ events w' = events w ++ es
        /\ es !! 255%nat = Some (EvStore 277440 0)
        /\ (1088 * 299999999) mod 1048576 = 310208
        /\ p' !! Z.to_nat 310208 = Some 149
        /\ 255 mod 256 = 255
        /\ (300000000 - 1) mod 256 = 255.
Proof.
  exists (set_memUsage 1048576 initial_world).
  split; [reflexivity|]. split; [lia|].
  apply (C1_write_stores_index_mod_255 1088
           (set_memUsage 1048576 initial_world)); [reflexivity|lia].
Defined.

(** C2.  Started with the accumulator at 0 on an array of [N >= 1] bytes
    holding [i mod 256] in cell [i] (which is what the initialisation loop
    leaves), the timed loop of the read benchmark ends, after [nrOps] rounds,
    with the accumulator equal to the sum over [k] in [0, nrOps) of the cell
    at offset [(1088 * k) mod N], modulo 2^64.  [N + 1088 <= 2^64] keeps
    [pos += 17*64] from wrapping in [size_t]; every size [main] can set
    satisfies it ([configure_memUsage_range]). *)
Theorem C2_read_accumulator (fuel : nat) (N nrOps : Z) (w : world) :
  1 <= N -> N + 1088 <= 2 ^ 64 -> memUsage w = N -> dummy w = 0 ->
  0 <= nrOps < 2 ^ 64 -> (1088 <= fuel)%nat ->
  (forall p0, Z.of_nat (length p0) = N ->
     exists w1, init_loop p0 w = Ok (pattern N) w1)
  /\ (forall i, 0 <= i < N -> pattern N !! Z.to_nat i = Some (i mod 256))
  /\ exists pos w',
      read_loop fuel nrOps (pattern N, 0) w = Ok (pattern N, pos) w'
      /\ dummy w'
         = wrap64 (sum_upto (fun k => byte_at (pattern N) ((1088 * k) mod N))
                     (Z.to_nat nrOps)).
Proof.
  intros HN Hmax HM Hd Hn Hfuel. split; [|split].
  - intros p0 Hlen. eexists. subst N. apply init_loop_ok; lia.
  - intros i Hi. now apply pattern_lookup.
  - eexists _, _. split.
    + apply (read_loop_ok fuel N nrOps); rewrite ?length_pattern; lia.
    + cbn [dummy set_dummy]. rewrite acc_upto_sum by lia.
      rewrite Hd. reflexivity.
Qed.

Lemma C2_read_accumulator_witness :
  dummy (set_memUsage 5 initial_world) = 0
  /\ exists pos w',
      read_loop 1088 4 (pattern 5, 0) (set_memUsage 5 initial_world)
      = Ok (pattern 5, pos) w'
      /\ dummy w'
         = wrap64 (sum_upto (fun k => byte_at (pattern 5) ((1088 * k) mod 5))
                     (Z.to_nat 4)).
Proof.
  split; [reflexivity|].
  apply (C2_read_accumulator 1088 5 4 (set_memUsage 5 initial_world));
    first [reflexivity | lia].
Defined.

(** C3.  For an array of [N >= 1] bytes the cursor of the k-th access is
    [(1088 * k) mod N], from offset 0 at [k = 0], in the read loop and in the
    write loop alike: adding the stride and subtracting [N] until the cursor
    is below [N] gives [(pos + 1088) mod N].  [N + 1088 <= 2^64] keeps the
    addition of the stride from wrapping in [size_t]; every size [main] can
    set is at least 1 MiB and satisfies it ([configure_memUsage_range]). *)
Theorem C3_cursor_is_modular (fuel : nat) (N nrOps k : Z) (p : list Z)
    (w : world) :
  1 <= N -> N + 1088 <= 2 ^ 64 -> memUsage w = N ->
  Z.of_nat (length p) = N -> 0 <= k < nrOps -> nrOps < 2 ^ 64 ->
  (1088 <= fuel)%nat ->
  (forall pos, 0 <= pos < N -> advance fuel pos w = Ok ((pos + 1088) mod N) w)
  /\ (exists w' es v,
        read_loop fuel nrOps (p, 0) w = Ok (p, (1088 * nrOps) mod N) w'
        /\ events w' = events w ++ es
        /\ Z.of_nat (length es) = nrOps
        /\ es !! Z.to_nat k = Some (EvLoad ((1088 * k) mod N) v))
  /\ (exists p' w' es v,
        write_loop fuel nrOps (p, 0) w = Ok (p', (1088 * nrOps) mod N) w'
        /\ events w' = events w ++ es
        /\ Z.of_nat (length es) = nrOps
        /\ es !! Z.to_nat k = Some (EvStore ((1088 * k) mod N) v)).
Proof.
  intros HN Hmax HM Hlen Hk Hn Hfuel. split; [|split].
  - intros pos Hpos. subst N. now apply advance_ok.
  - eexists _, _, _. split; [apply read_loop_ok; eassumption || lia|].
    split; [reflexivity|]. split.
    + rewrite length_read_events. lia.
    + now apply read_events_lookup.
  - eexists _, _, _, _. split; [apply write_loop_ok; eassumption || lia|].
    split; [reflexivity|]. split.
    + rewrite length_write_events. lia.
    + now apply write_events_lookup.
Qed.

Lemma C3_cursor_is_modular_witness :
  memUsage (set_memUsage 5 initial_world) = 5
  /\ (exists w' es v,
        read_loop 1088 4 ([0; 1; 2; 3; 4], 0) (set_memUsage 5 initial_world)
        = Ok ([0; 1; 2; 3; 4], (1088 * 4) mod 5) w'
        /\ events w' = events (set_memUsage 5 initial_world) ++ es
        /\ Z.of_nat (length es) = 4
        /\ es !! Z.to_nat 2 = Some (EvLoad ((1088 * 2) mod 5) v)).
Proof.
  split; [reflexivity|].
  apply (C3_cursor_is_modular 1088 5 4 2 [0; 1; 2; 3; 4]
           (set_memUsage 5 initial_world));
    first [reflexivity | lia].
Defined.

(** C4.  When the first argument parses to [m], the memory usage [main]
    resolves is 128 MiB for [m = 0], 1024 MiB for [m >= 1048576] and [m] MiB
    for [m] in between, in bytes: the clamps come first, the conversion to
    bytes after them. *)
Theorem C4_memUsage_resolved (argv : list string) (m : Z) (w w' : world) :
  stoul (nth 1 argv EmptyString) = Parsed m ->
  configure argv w = Ok tt w' ->
  (m = 0 -> memUsage w' = 128 * 1024 * 1024)
  /\ (1048576 <= m -> memUsage w' = 1024 * 1024 * 1024)
  /\ (1 <= m <= 1048575 -> memUsage w' = m * 1024 * 1024).
Proof.
  intros Hm Hc.
  destruct (configure_inv argv w w' Hc) as (m' & d & ot & E1 & _ & _ & ->).
  rewrite Hm in E1. injection E1 as <-.
  rewrite memUsage_configured. unfold clamp_mem.
  change (1024 * 1024) with 1048576.
  destruct (Z.gtb_spec m 0);
    [destruct (Z.ltb_spec m 1048576)|destruct (Z.ltb_spec 128 1048576)];
    repeat split; intros; lia.
Qed.

Lemma C4_memUsage_resolved_witness :
  stoul (nth 1 ["fuxx"; "64"; "16"]%string EmptyString) = Parsed 64
  /\ memUsage (configured 64 16 None initial_world) = 64 * 1024 * 1024.
Proof.
  split; [reflexivity|].
  apply (C4_memUsage_resolved ["fuxx"; "64"; "16"]%string 64 initial_world
           (configured 64 16 None initial_world));
    first [reflexivity | lia].
Defined.

(** C5.  A third argument that parses to 0 or to 1000 or more resolves to a
    time factor of 100, one from 1 to 999 to itself; without a third argument
    the time factor is 100. *)
Theorem C5_timeFactor_resolved (argv : list string) (w' : world) :
  configure argv initial_world = Ok tt w' ->
  (argc argv < 4 -> timeFactor w' = 100)
  /\ (forall t,
        4 <= argc argv -> stoul (nth 3 argv EmptyString) = Parsed t ->
        (t = 0 \/ 1000 <= t -> timeFactor w' = 100)
        /\ (1 <= t <= 999 -> timeFactor w' = t)).
Proof.
  intros Hc.
  destruct (configure_inv argv _ w' Hc) as (m & d & ot & _ & _ & H3 & ->).
  destruct ot as [t'|]; cbn [third_arg] in H3; cbn [timeFactor configured].
  - destruct H3 as [H3 H4]. split; [lia|].
    intros t _ Ht. rewrite H4 in Ht. injection Ht as <-.
    unfold clamp_tf.
    destruct (Z.gtb_spec t' 0);
      [destruct (Z.ltb_spec t' 1000)|destruct (Z.ltb_spec 100 1000)];
      split; intros; lia.
  - split; [reflexivity|]. intros t Ht. lia.
Qed.

Lemma C5_timeFactor_resolved_witness :
  timeFactor (configured 64 16 None initial_world) = 100
  /\ timeFactor (configured 64 16 (Some 5000) initial_world) = 100
  /\ timeFactor (configured 64 16 (Some 10) initial_world) = 10.
Proof.
  pose proof (C5_timeFactor_resolved ["fuxx"; "64"; "16"]%string
                (configured 64 16 None initial_world) eq_refl) as [H1 _].
  pose proof (C5_timeFactor_resolved ["fuxx"; "64"; "16"; "5000"]%string
                (configured 64 16 (Some 5000) initial_world) eq_refl)
    as [_ H2].
  pose proof (C5_timeFactor_resolved ["fuxx"; "64"; "16"; "10"]%string
                (configured 64 16 (Some 10) initial_world) eq_refl)
    as [_ H3].
  split; [|split].
  - apply H1. reflexivity.
  - apply (H2 5000); first [reflexivity | unfold argc; simpl; lia].
  - apply (H3 10); first [reflexivity | unfold argc; simpl; lia].
Defined.

(** C6.  With a resolved time factor (1 to 999) and an array the allocator
    grants, the timed loop of either benchmark makes exactly
    [300000000 * timeFactor / 100] rounds, the division being that of
    integers: that many accesses lie between the two readings of the clock.
    A benchmark whose array the allocator refuses ends with [std::bad_alloc]
    before its loop: it makes no round and does not read the clock.  The
    arguments [64 16 10] give 64 MiB, a time factor of 10 and, when the two
    arrays of 64 MiB are granted, 30,000,000 rounds in each benchmark. *)
Theorem C6_iteration_count (junk clock : nat -> Z) (avail : list event -> N)
    (fuel : nat) :
  (1088 <= fuel)%nat ->
  (forall w,
      1 <= memUsage w < 2 ^ 64 -> 1 <= timeFactor w <= 999 ->
      memUsage w <= Z.of_N (avail (events w)) ->
      (exists wr timed,
          memoryLatencyRead junk clock avail fuel w = Ok tt wr
          /\ events wr = events w ++ bench_events clock w timed
          /\ Forall (access_within (memUsage w)) timed
          /\ Z.of_nat (length timed) = 300000000 * timeFactor w / 100)
      /\ (exists ww timed,
            memoryLatencyWrite junk clock avail fuel w = Ok tt ww
            /\ events ww = events w ++ bench_events clock w timed
            /\ Forall (access_within (memUsage w)) timed
            /\ Z.of_nat (length timed) = 300000000 * timeFactor w / 100))
  /\ (forall w,
        Z.of_N (avail (events w)) < memUsage w ->
        (exists wr,
            memoryLatencyRead junk clock avail fuel w = Abort BadAlloc wr
            /\ events wr = events w /\ ticks wr = ticks w)
        /\ (exists ww,
              memoryLatencyWrite junk clock avail fuel w = Abort BadAlloc ww
              /\ events ww = events w /\ ticks ww = ticks w))
  /\ ((forall es, 67108864 <= Z.of_N (avail es)) ->
      exists w' w0 w1 loads stores,
        run junk clock avail fuel ["fuxx"; "64"; "16"; "10"]%string = Ok 0 w'
        /\ memUsage w' = 67108864
        /\ diskUsage w' = 16 * 1024 * 1024
        /\ timeFactor w' = 10
        /\ events w'
           = bench_events clock w0 loads ++ bench_events clock w1 stores
        /\ memUsage w0 = 67108864 /\ memUsage w1 = 67108864
        /\ Forall (access_within 67108864) loads
        /\ Forall (access_within 67108864) stores
        /\ Z.of_nat (length loads) = 30000000
        /\ Z.of_nat (length stores) = 30000000).
Proof.
  intros Hfuel. split; [|split].
  - intros w HN Htf Havail.
    pose proof (nrTries_range (timeFactor w)) as Hr.
    rewrite <- nrTries_resolved by assumption. split.
    + destruct (memoryLatencyRead_safe junk clock avail fuel w HN Hfuel Havail)
        as (wr & timed & E & Hes & Hlen & Hall).
      exists wr, timed. repeat split; try assumption. lia.
    + destruct (memoryLatencyWrite_safe junk clock avail fuel w HN Hfuel Havail)
        as (ww & timed & E & Hes & Hlen & Hall).
      exists ww, timed. repeat split; try assumption. lia.
  - intros w Havail. split.
    + eexists. split; [now apply memoryLatencyRead_refused|].
      split; reflexivity.
    + eexists. split; [now apply memoryLatencyWrite_refused|].
      split; reflexivity.
  - intros Havail.
    pose (cfg := configured 64 16 (Some 10) initial_world).
    assert (EM : memUsage cfg = 67108864) by reflexivity.
    assert (EN : nrTries_of (timeFactor cfg) = 30000000) by reflexivity.
    exists (final_world clock 64 16 (Some 10)), cfg, (after_read clock cfg).
    exists (read_events (memUsage cfg) (pattern (memUsage cfg))
              (nrTries_of (timeFactor cfg))).
    exists (write_events (memUsage cfg) (nrTries_of (timeFactor cfg))).
    split.
    { apply main_ok; try assumption; try reflexivity.
      - unfold argc. simpl. lia.
      - split; [unfold argc; simpl; lia|reflexivity]. }
    split; [exact EM|]. split; [reflexivity|]. split; [reflexivity|].
    split; [apply final_world_events|].
    split; [exact EM|]. split; [exact EM|].
    split; [rewrite <- EM; apply read_events_within; rewrite EM; lia|].
    split; [rewrite <- EM; apply write_events_within; rewrite EM; lia|].
    rewrite length_read_events, length_write_events, EN.
    rewrite Z2Nat.id by lia. split; reflexivity.
Qed.

Lemma C6_iteration_count_witness :
  exists w' w0 w1 loads stores,
    run (fun _ => 0) (fun _ => 0) (fun _ => 67108864%N) 1088
      ["fuxx"; "64"; "16"; "10"]%string
    = Ok 0 w'
    /\ memUsage w' = 67108864
    /\ diskUsage w' = 16 * 1024 * 1024
    /\ timeFactor w' = 10
    /\ events w'
       = bench_events (fun _ => 0) w0 loads
         ++ bench_events (fun _ => 0) w1 stores
    /\ memUsage w0 = 67108864 /\ memUsage w1 = 67108864
    /\ Forall (access_within 67108864) loads
    /\ Forall (access_within 67108864) stores
    /\ Z.of_nat (length loads) = 30000000
    /\ Z.of_nat (length stores) = 30000000.
Proof.
  refine (proj2 (proj2 (C6_iteration_count (fun _ => 0) (fun _ => 0)
                          (fun _ => 67108864%N) 1088 (Nat.le_refl 1088))) _).
  intros es. vm_compute. discriminate.
Defined.

(** C7.  With fewer than three entries in [argv] the program prints the
    usage text, which contains "Usage: ", and returns 0; nothing is
    allocated, no array cell is accessed and the clock is not read. *)
Theorem C7_usage (junk clock : nat -> Z) (avail : list event -> N)
    (fuel : nat) (argv : list string) :
  argc argv < 3 ->
  exists w',
    run junk clock avail fuel argv = Ok 0 w'
    /\ stdout w' = [Str usage]
    /\ (exists pre post : string, usage = (pre ++ "Usage: " ++ post)%string)
    /\ events w' = []
    /\ ticks w' = 0%nat.
Proof.
  intros Hargc. exists (emit [Str usage] initial_world).
  split; [|split; [|split; [|split]]]; try reflexivity.
  - unfold run, main.
    destruct (Z.ltb_spec (argc argv) 3); [reflexivity|lia].
  - exists newline.
    eexists. unfold usage. cbn. reflexivity.
Qed.

Lemma C7_usage_witness :
  argc ["fuxx"; "64"]%string < 3
  /\ exists w',
      run (fun _ => 0) (fun _ => 0) (fun _ => 0%N) 0 ["fuxx"; "64"]%string
      = Ok 0 w'
      /\ stdout w' = [Str usage]
      /\ (exists pre post : string, usage = (pre ++ "Usage: " ++ post)%string)
      /\ events w' = []
      /\ ticks w' = 0%nat.
Proof.
  split; [reflexivity|].
  apply (C7_usage (fun _ => 0) (fun _ => 0) (fun _ => 0%N) 0
           ["fuxx"; "64"]%string).
  reflexivity.
Defined.




(** C9.  For every array size from 1 byte up (and [main] sets at least
    1 MiB, [configure_memUsage_range]) and whatever the allocator does, no
    benchmark makes an access outside its array.  When the array is granted
    the benchmark runs to its end: the cursor is inside the array at every
    read and write of the timed loop, the writes of the initialisation loop
    are inside it.  When the array is refused the benchmark ends with
    [std::bad_alloc] without an access.  The loop that wraps the cursor ends
    after at most 1088 subtractions, with the cursor inside the array. *)
Theorem C9_accesses_in_bounds (junk clock : nat -> Z)
    (avail : list event -> N) (fuel : nat) (w : world) :
  1 <= memUsage w < 2 ^ 64 -> (1088 <= fuel)%nat ->
  (memUsage w <= Z.of_N (avail (events w)) ->
   (exists w' es,
       memoryLatencyRead junk clock avail fuel w = Ok tt w'
       /\ events w' = events w ++ es
       /\ Forall (in_bounds (memUsage w)) es)
   /\ (exists w' es,
         memoryLatencyWrite junk clock avail fuel w = Ok tt w'
         /\ events w' = events w ++ es
         /\ Forall (in_bounds (memUsage w)) es))
  /\ (Z.of_N (avail (events w)) < memUsage w ->
      (exists w',
          memoryLatencyRead junk clock avail fuel w = Abort BadAlloc w'
          /\ events w' = events w)
      /\ (exists w',
            memoryLatencyWrite junk clock avail fuel w = Abort BadAlloc w'
            /\ events w' = events w))
  /\ (forall pos,
        0 <= pos < memUsage w ->
        exists pos',
          advance fuel pos w = Ok pos' w /\ 0 <= pos' < memUsage w).
Proof.
  intros HN Hfuel. split; [|split].
  - intros Havail. split.
    + destruct (memoryLatencyRead_safe junk clock avail fuel w HN Hfuel Havail)
        as (w' & timed & E & Hes & _ & Hall).
      exists w', (bench_events clock w timed).
      repeat split; try assumption. now apply bench_events_in_bounds.
    + destruct (memoryLatencyWrite_safe junk clock avail fuel w HN Hfuel Havail)
        as (w' & timed & E & Hes & _ & Hall).
      exists w', (bench_events clock w timed).
      repeat split; try assumption. now apply bench_events_in_bounds.
  - intros Havail. split.
    + eexists. split; [now apply memoryLatencyRead_refused|reflexivity].
    + eexists. split; [now apply memoryLatencyWrite_refused|reflexivity].
  - intros pos Hpos. apply advance_safe; [lia|assumption|assumption].
Qed.

Lemma C9_accesses_in_bounds_witness :
  1 <= memUsage (set_memUsage 1 initial_world) < 2 ^ 64
  /\ (exists w' es,
        memoryLatencyRead (fun _ => 0) (fun _ => 0) (fun _ => 1%N) 1088
          (set_memUsage 1 initial_world) = Ok tt w'
        /\ events w' = events (set_memUsage 1 initial_world) ++ es
        /\ Forall (in_bounds (memUsage (set_memUsage 1 initial_world))) es)
  /\ (exists w',
        memoryLatencyRead (fun _ => 0) (fun _ => 0) (fun _ => 0%N) 1088
          (set_memUsage 1 initial_world) = Abort BadAlloc w'
        /\ events w' = events (set_memUsage 1 initial_world)).
Proof.
  assert (H : 1 <= memUsage (set_memUsage 1 initial_world) < 2 ^ 64)
    by (simpl; lia).
  assert (H1 : memUsage (set_memUsage 1 initial_world)
               <= Z.of_N ((fun _ : list event => 1%N)
                            (events (set_memUsage 1 initial_world))))
    by (simpl; lia).
  assert (H0 : Z.of_N ((fun _ : list event => 0%N)
                         (events (set_memUsage 1 initial_world)))
               < memUsage (set_memUsage 1 initial_world))
    by (simpl; lia).
  split; [exact H|]. split.
  - exact (proj1 (proj1 (C9_accesses_in_bounds (fun _ => 0) (fun _ => 0)
                           (fun _ => 1%N) 1088 (set_memUsage 1 initial_world)
                           H (Nat.le_refl 1088)) H1)).
  - exact (proj1 (proj1 (proj2 (C9_accesses_in_bounds (fun _ => 0)
                                  (fun _ => 0) (fun _ => 0%N) 1088
                                  (set_memUsage 1 initial_world)
                                  H (Nat.le_refl 1088))) H0)).
Defined.

(** C10.  [memoryLatencyWrite] leaves [dummy] as it finds it, however it
    ends; so in a run that reaches its end (the arguments parse and both
    arrays are granted) the number printed after "Please ignore: " is the
    accumulator as [memoryLatencyRead] left it, which is the sum of the
    bytes read (modulo 2^64), the accumulator being 0 when the program
    starts. *)
Theorem C10_write_keeps_dummy (junk clock : nat -> Z)
    (avail : list event -> N) (fuel : nat) :
  (forall w,
      dummy (world_of (memoryLatencyWrite junk clock avail fuel w)) = dummy w)
  /\ (forall argv w0,
        3 <= argc argv ->
        configure argv initial_world = Ok tt w0 ->
        (forall es, memUsage w0 <= Z.of_N (avail es)) ->
        (1088 <= fuel)%nat ->
        exists wr w' out,
          memoryLatencyRead junk clock avail fuel w0 = Ok tt wr
          /\ run junk clock avail fuel argv = Ok 0 w'
          /\ stdout w'
             = out ++ [Str (newline ++ "Please ignore: "); Num (dummy wr); Endl]
          /\ dummy wr
             = wrap64
                 (sum_upto (fun k => ((1088 * k) mod memUsage w0) mod 256)
                    (Z.to_nat (nrTries_of (timeFactor w0))))).
Proof.
  split; [apply keeps_memoryLatencyWrite|].
  intros argv w0 Hargc Hc Havail Hfuel.
  destruct (main_configured junk clock avail fuel argv w0 Hargc Hc Havail Hfuel)
    as (m & d & ot & -> & H3 & E).
  pose proof (clamp_mem_range m) as Hm.
  exists (after_read clock (configured m d ot initial_world)).
  exists (final_world clock m d ot).
  eexists.
  split.
  { apply memoryLatencyRead_ok; rewrite ?memUsage_configured; try lia.
    rewrite <- (memUsage_configured m d ot initial_world). apply Havail. }
  split; [exact E|].
  split; [reflexivity|].
  cbn [dummy after_read configured initial_world]. unfold read_acc.
  rewrite acc_upto_sum by lia. reflexivity.
Qed.

Lemma C10_write_keeps_dummy_witness :
  (forall w,
      dummy (world_of (memoryLatencyWrite (fun _ => 0) (fun _ => 0)
                         (fun _ => 67108864%N) 1088 w))
      = dummy w)
  /\ exists wr w' out,
      memoryLatencyRead (fun _ => 0) (fun _ => 0) (fun _ => 67108864%N) 1088
        (configured 64 16 None initial_world) = Ok tt wr
      /\ run (fun _ => 0) (fun _ => 0) (fun _ => 67108864%N) 1088
           ["fuxx"; "64"; "16"]%string
         = Ok 0 w'
      /\ stdout w'
         = out ++ [Str (newline ++ "Please ignore: "); Num (dummy wr); Endl]
      /\ dummy wr
         = wrap64
             (sum_upto
                (fun k =>
                   ((1088 * k)
                    mod memUsage (configured 64 16 None initial_world))
                   mod 256)
                (Z.to_nat
                   (nrTries_of
                      (timeFactor (configured 64 16 None initial_world))))).
Proof.
  split.
  - exact (proj1 (C10_write_keeps_dummy (fun _ => 0) (fun _ => 0)
                    (fun _ => 67108864%N) 1088)).
  - refine (proj2 (C10_write_keeps_dummy (fun _ => 0) (fun _ => 0)
                     (fun _ => 67108864%N) 1088)
              ["fuxx"; "64"; "16"]%string (configured 64 16 None initial_world)
              _ eq_refl _ (Nat.le_refl 1088)).
    + unfold argc. simpl. lia.
    + intros es. vm_compute. discriminate.
Defined.

(** * Further properties of the code *)

(** ** The arguments *)

Lemma diskUsage_configured (m d : Z) (ot : option Z) (w : world) :
  diskUsage (configured m d ot w) = clamp_disk d * 1048576.
Proof.
  cbn [diskUsage configured]. change (1024 * 1024) with 1048576.
  pose proof (clamp_disk_range d). apply wrap64_small. lia.
Qed.

Lemma timeFactor_configured (m d : Z) (ot : option Z) :
  1 <= timeFactor (configured m d ot initial_world) <= 999.
Proof.
  destruct ot as [t|]; cbn [timeFactor configured initial_world];
    [apply clamp_tf_range|lia].
Qed.

(** X1.  When the second argument parses to [d], the disk usage [main]
    resolves is 16 MiB for [d] below 16, 1024 MiB for [d] from 1048576 up,
    and [d] MiB in between, in bytes. *)
Theorem X1_diskUsage_resolved (argv : list string) (d : Z) (w w' : world) :
  stoul (nth 2 argv EmptyString) = Parsed d ->
  configure argv w = Ok tt w' ->
  (d < 16 -> diskUsage w' = 16 * 1024 * 1024)
  /\ (1048576 <= d -> diskUsage w' = 1024 * 1024 * 1024)
  /\ (16 <= d <= 1048575 -> diskUsage w' = d * 1024 * 1024).
Proof.
  intros Hd Hc.
  destruct (configure_inv argv w w' Hc) as (m & d' & ot & _ & E2 & _ & ->).
  rewrite Hd in E2. injection E2 as <-.
  rewrite diskUsage_configured. unfold clamp_disk.
  change (1024 * 1024) with 1048576.
  destruct (Z.geb_spec d 16);
    [destruct (Z.ltb_spec d 1048576)|destruct (Z.ltb_spec 16 1048576)];
    repeat split; intros; lia.
Qed.

Lemma X1_diskUsage_resolved_witness :
  stoul (nth 2 ["fuxx"; "64"; "3"]%string EmptyString) = Parsed 3
  /\ diskUsage (configured 64 3 None initial_world) = 16 * 1024 * 1024.
Proof.
  split; [reflexivity|].
  exact (proj1 (X1_diskUsage_resolved ["fuxx"; "64"; "3"]%string 3
                  initial_world (configured 64 3 None initial_world)
                  eq_refl eq_refl) ltac:(lia)).
Defined.

(** What [configure] has done when the first, the second or the third
    argument does not parse. *)
Lemma configure_abort_1 (argv : list string) (e : failure) (w : world) :
  stoul_failure (stoul (nth 1 argv EmptyString)) = Some e ->
  configure argv w = Abort e w.
Proof.
  intros H. unfold configure. apply bind_abort. unfold stoul_arg.
  destruct (stoul (nth 1 argv EmptyString)); cbn in H; congruence.
Qed.

Lemma configure_abort_2 (argv : list string) (m : Z) (e : failure) (w : world) :
  stoul (nth 1 argv EmptyString) = Parsed m ->
  stoul_failure (stoul (nth 2 argv EmptyString)) = Some e ->
  configure argv w
  = Abort e
      (emit [Str "Memory usage in MiB: "; Num (clamp_mem m); Endl]
         (set_memUsage (clamp_mem m) w)).
Proof.
  intros H1 H. unfold configure.
  erewrite bind_ok by (apply stoul_arg_parsed; eassumption).
  do 5 (erewrite bind_ok by reflexivity).
  erewrite bind_abort; [reflexivity|].
  unfold stoul_arg.
  destruct (stoul (nth 2 argv EmptyString)); cbn in H; try congruence;
    injection H as <-; (f_equal; unfold clamp_mem; world_eq).
Qed.

Lemma configure_abort_3 (argv : list string) (m d : Z) (e : failure)
    (w : world) :
  stoul (nth 1 argv EmptyString) = Parsed m ->
  stoul (nth 2 argv EmptyString) = Parsed d ->
  4 <= argc argv ->
  stoul_failure (stoul (nth 3 argv EmptyString)) = Some e ->
  configure argv w = Abort e (configured m d None w).
Proof.
  intros H1 H2 Hargc H. unfold configure.
  erewrite bind_ok by (apply stoul_arg_parsed; eassumption).
  do 5 (erewrite bind_ok by reflexivity).
  erewrite bind_ok by (apply stoul_arg_parsed; eassumption).
  do 7 (erewrite bind_ok by reflexivity).
  destruct (Z.geb_spec (argc argv) 4); [|lia].
  erewrite bind_abort; [reflexivity|].
  unfold stoul_arg.
  destruct (stoul (nth 3 argv EmptyString)); cbn in H; try congruence;
    injection H as <-;
    (f_equal; unfold configured, time_factor_line, clamp_mem, clamp_disk;
     world_eq; now rewrite <- !app_assoc).
Qed.

Lemma main_abort (junk clock : nat -> Z) (avail : list event -> N)
    (fuel : nat) (argv : list string) (e : failure) (w : world) :
  3 <= argc argv ->
  configure argv initial_world = Abort e w ->
  run junk clock avail fuel argv = Abort e w.
Proof.
  intros Hargc H. unfold run, main.
  destruct (Z.ltb_spec (argc argv) 3); [lia|].
  now apply bind_abort.
Qed.

(** X2.  With three or more entries in [argv], an argument that
    [std::stoul] refuses ends the run there: at the first argument nothing
    has been printed; at the second the line on memory usage has been
    printed and nothing else; at the third both lines on usage have been
    printed.  In each case no array was allocated or accessed and the clock
    was not read. *)
Theorem X2_bad_argument_ends_run (junk clock : nat -> Z)
    (avail : list event -> N) (fuel : nat) (argv : list string) :
  3 <= argc argv ->
  (forall e,
      stoul_failure (stoul (nth 1 argv EmptyString)) = Some e ->
      run junk clock avail fuel argv = Abort e initial_world)
  /\ (forall m e,
        stoul (nth 1 argv EmptyString) = Parsed m ->
        stoul_failure (stoul (nth 2 argv EmptyString)) = Some e ->
        exists w',
          run junk clock avail fuel argv = Abort e w'
          /\ stdout w' = [Str "Memory usage in MiB: "; Num (clamp_mem m); Endl]
          /\ events w' = [] /\ ticks w' = 0%nat)
  /\ (forall m d e,
        stoul (nth 1 argv EmptyString) = Parsed m ->
        stoul (nth 2 argv EmptyString) = Parsed d ->
        4 <= argc argv ->
        stoul_failure (stoul (nth 3 argv EmptyString)) = Some e ->
        exists w',
          run junk clock avail fuel argv = Abort e w'
          /\ stdout w'
             = [Str "Memory usage in MiB: "; Num (clamp_mem m); Endl;
                Str "Disk   usage in MiB: "; Num (clamp_disk d); Endl]
          /\ events w' = [] /\ ticks w' = 0%nat).
Proof.
  intros Hargc. split; [|split].
  - intros e H. apply main_abort; [assumption|]. now apply configure_abort_1.
  - intros m e H1 H. eexists. split.
    + apply main_abort; [assumption|]. eapply configure_abort_2; eassumption.
    + repeat split.
  - intros m d e H1 H2 H4 H. eexists. split.
    + apply main_abort; [assumption|]. eapply configure_abort_3; eassumption.
    + repeat split.
Qed.

Lemma X2_bad_argument_ends_run_witness :
  3 <= argc ["fuxx"; "64"; "16"; "verbose"]%string
  /\ exists w',
      run (fun _ => 0) (fun _ => 0) (fun _ => 0%N) 0
        ["fuxx"; "64"; "16"; "verbose"]%string
      = Abort BadArgument w'
      /\ stdout w'
         = [Str "Memory usage in MiB: "; Num (clamp_mem 64); Endl;
            Str "Disk   usage in MiB: "; Num (clamp_disk 16); Endl]
      /\ events w' = [] /\ ticks w' = 0%nat.
Proof.
  assert (H : 3 <= argc ["fuxx"; "64"; "16"; "verbose"]%string)
    by (unfold argc; simpl; lia).
  split; [exact H|].
  refine (proj2 (proj2 (X2_bad_argument_ends_run (fun _ => 0) (fun _ => 0)
                          (fun _ => 0%N) 0
                          ["fuxx"; "64"; "16"; "verbose"]%string H))
            64 16 BadArgument eq_refl eq_refl _ eq_refl).
  unfold argc; simpl; lia.
Defined.

(** X3.  Whatever the arguments, when [main] has accepted them the memory
    usage is a whole number of MiB from 1 to 1048575, the disk usage one from
    16 to 1048575, and the time factor is from 1 to 999; the product
    [300000000 * timeFactor] then fits 64 bits, its division by 100 is exact,
    and each benchmark makes [3000000 * timeFactor] rounds, at least
    3,000,000: [report] never divides by 0. *)
Theorem X3_configuration_ranges (argv : list string) (w' : world) :
  configure argv initial_world = Ok tt w' ->
  (exists m, 1 <= m <= 1048575 /\ memUsage w' = m * 1048576)
  /\ (exists d, 16 <= d <= 1048575 /\ diskUsage w' = d * 1048576)
  /\ 1 <= timeFactor w' <= 999
  /\ 300000000 * timeFactor w' < 2 ^ 64
  /\ nrTries_of (timeFactor w') = 3000000 * timeFactor w'
  /\ 3000000 <= nrTries_of (timeFactor w') <= 2997000000.
Proof.
  intros H.
  destruct (configure_inv argv _ w' H) as (m & d & ot & _ & _ & _ & ->).
  pose proof (timeFactor_configured m d ot) as Ht.
  assert (En : nrTries_of (timeFactor (configured m d ot initial_world))
               = 3000000 * timeFactor (configured m d ot initial_world)).
  { unfold nrTries_of. rewrite wrap64_small by lia.
    replace (300000000 * timeFactor (configured m d ot initial_world))
      with (3000000 * timeFactor (configured m d ot initial_world) * 100)
      by lia.
    apply Z.div_mul. lia. }
  split; [|split; [|split; [|split; [|split]]]].
  - exists (clamp_mem m). split; [apply clamp_mem_range|].
    apply memUsage_configured.
  - exists (clamp_disk d). split; [apply clamp_disk_range|].
    apply diskUsage_configured.
  - exact Ht.
  - lia.
  - exact En.
  - rewrite En. lia.
Qed.

Lemma X3_configuration_ranges_witness :
  nrTries_of (timeFactor (configured 0 0 (Some 5000) initial_world))
  = 3000000 * timeFactor (configured 0 0 (Some 5000) initial_world).
Proof.
  exact (proj1 (proj2 (proj2 (proj2 (proj2
           (X3_configuration_ranges ["fuxx"; "0"; "0"; "5000"]%string
              (configured 0 0 (Some 5000) initial_world) eq_refl)))))).
Defined.

(** ** The life of the arrays *)

Lemma heap_run_app (es1 es2 : list event) :
  forall live,
    heap_run live (es1 ++ es2)
    = match heap_run live es1 with
      | Some live' => heap_run live' es2
      | None => None
      end.
Proof.
  induction es1 as [|e es1 IH]; intros live; cbn [heap_run app].
  - reflexivity.
  - destruct (heap_step live e); [apply IH|reflexivity].
Qed.

Lemma heap_run_accesses (N : Z) (es : list event) :
  Forall (access_within N) es -> heap_run (Some N) es = Some (Some N).
Proof.
  induction 1 as [|e es He _ IH]; cbn [heap_run]; [reflexivity|].
  assert (heap_step (Some N) e = Some (Some N)) as ->; [|exact IH].
  destruct e; cbn in He; try contradiction; cbn [heap_step];
    (destruct (Z.leb_spec 0 pos); [|lia]);
    (destruct (Z.ltb_spec pos N); [reflexivity|lia]).
Qed.

(** The log of one benchmark passes the monitor and leaves no array. *)
Lemma heap_run_bench (clock : nat -> Z) (w : world) (timed : list event) :
  Forall (access_within (memUsage w)) timed ->
  heap_run None (bench_events clock w timed) = Some None.
Proof.
  intros H. unfold bench_events.
  change ([EvNew (memUsage w)] ++ ?l) with (EvNew (memUsage w) :: l).
  cbn [heap_run heap_step].
  rewrite heap_run_app, heap_run_accesses by apply init_events_within.
  cbn [heap_run heap_step app].
  rewrite heap_run_app, heap_run_accesses by assumption.
  reflexivity.
Qed.

(** X4.  Every access of a benchmark is to an array that is allocated at
    that moment and inside its bounds; an array is allocated only when none
    is, is freed once, and none is left when the benchmark ends.  So it is
    for the two benchmarks, for every array size from 1 byte up, and for
    every run whose arguments parse, whether the allocator grants the arrays
    or the run ends with [std::bad_alloc]. *)
Theorem X4_arrays_live_and_freed (junk clock : nat -> Z)
    (avail : list event -> N) (fuel : nat) :
  (1088 <= fuel)%nat ->
  (forall w,
      1 <= memUsage w < 2 ^ 64 ->
      (exists w' es,
          (memoryLatencyRead junk clock avail fuel w = Ok tt w'
           \/ memoryLatencyRead junk clock avail fuel w = Abort BadAlloc w')
          /\ events w' = events w ++ es
          /\ heap_run None es = Some None)
      /\ (exists w' es,
            (memoryLatencyWrite junk clock avail fuel w = Ok tt w'
             \/ memoryLatencyWrite junk clock avail fuel w = Abort BadAlloc w')
            /\ events w' = events w ++ es
            /\ heap_run None es = Some None))
  /\ (forall argv w0,
        3 <= argc argv ->
        configure argv initial_world = Ok tt w0 ->
        exists w',
          (run junk clock avail fuel argv = Ok 0 w'
           \/ run junk clock avail fuel argv = Abort BadAlloc w')
          /\ heap_run None (events w') = Some None).
Proof.
  intros Hfuel. split.
  - intros w HN.
    destruct (Z.le_gt_cases (memUsage w) (Z.of_N (avail (events w))))
      as [Hav|Hav]; split.
    + destruct (memoryLatencyRead_safe junk clock avail fuel w HN Hfuel Hav)
        as (w' & timed & E & Hes & _ & Hall).
      exists w', (bench_events clock w timed).
      split; [now left|]. split; [assumption|]. now apply heap_run_bench.
    + destruct (memoryLatencyWrite_safe junk clock avail fuel w HN Hfuel Hav)
        as (w' & timed & E & Hes & _ & Hall).
      exists w', (bench_events clock w timed).
      split; [now left|]. split; [assumption|]. now apply heap_run_bench.
    + exists (emit [Str banner_read] w), [].
      split; [right; now apply memoryLatencyRead_refused|].
      split; [cbn [events emit]; now rewrite app_nil_r|reflexivity].
    + exists (emit [Str banner_write] w), [].
      split; [right; now apply memoryLatencyWrite_refused|].
      split; [cbn [events emit]; now rewrite app_nil_r|reflexivity].
  - intros argv w0 Hargc Hc.
    pose proof (configure_memUsage_range argv _ _ Hc) as [Hr Hmax].
    assert (E0 : events w0 = []).
    { destruct (configure_inv argv _ w0 Hc) as (m & d & ot & _ & _ & _ & ->).
      reflexivity. }
    assert (HR : heap_run None
                   (bench_events clock w0
                      (read_events (memUsage w0) (pattern (memUsage w0))
                         (nrTries_of (timeFactor w0)))) = Some None)
      by (apply heap_run_bench, read_events_within; lia).
    destruct (Z.le_gt_cases (memUsage w0) (Z.of_N (avail (events w0))))
      as [Hav1|Hav1].
    + destruct (Z.le_gt_cases (memUsage w0)
                  (Z.of_N (avail (events (after_read clock w0)))))
        as [Hav2|Hav2].
      * eexists. split.
        { left. apply (main_granted junk clock avail fuel argv w0);
            assumption. }
        cbn [events emit after_write after_read memUsage timeFactor].
        rewrite E0, app_nil_l, heap_run_app, HR.
        apply heap_run_bench. cbn [memUsage].
        apply write_events_within. lia.
      * eexists. split.
        { right. apply (main_refused_2 junk clock avail fuel argv w0);
            assumption. }
        cbn [events emit after_read]. rewrite E0, app_nil_l. exact HR.
    + eexists. split.
      { right. apply (main_refused_1 junk clock avail fuel argv w0);
          assumption. }
      cbn [events emit]. rewrite E0. reflexivity.
Qed.

Lemma X4_arrays_live_and_freed_witness :
  exists w',
    (run (fun _ => 0) (fun _ => 0) (fun _ => 67108864%N) 1088
       ["fuxx"; "64"; "16"]%string = Ok 0 w'
     \/ run (fun _ => 0) (fun _ => 0) (fun _ => 67108864%N) 1088
          ["fuxx"; "64"; "16"]%string = Abort BadAlloc w')
    /\ heap_run None (events w') = Some None.
Proof.
  refine (proj2 (X4_arrays_live_and_freed (fun _ => 0) (fun _ => 0)
                   (fun _ => 67108864%N) 1088 (Nat.le_refl 1088))
            ["fuxx"; "64"; "16"]%string (configured 64 16 None initial_world)
            _ eq_refl).
  unfold argc. simpl. lia.
Defined.

(** The monitor refuses an access after the array is freed, an access outside
    the array, and a second deallocation. *)
Example heap_run_refuses :
  heap_run None [EvNew 2; EvStore 1 7; EvLoad 1 7; EvDelete] = Some None
  /\ heap_run None [EvNew 2; EvDelete; EvLoad 1 7] = None
  /\ heap_run None [EvNew 2; EvLoad 2 0; EvDelete] = None
  /\ heap_run None [EvNew 2; EvDelete; EvDelete] = None
  /\ heap_run None [EvNew 2; EvLoad 0 0] = Some (Some 2).
Proof. repeat split. Qed.

(** ** What a computation leaves alone *)

Lemma kept_ret {B A} (f : world -> B) (a : A) : keeps f (ret a).
Proof. intros w. reflexivity. Qed.

Lemma kept_bind {B A C} (f : world -> B) (m : M A) (k : A -> M C) :
  keeps f m -> (forall a, keeps f (k a)) -> keeps f (bind m k).
Proof.
  intros Hm Hk w. unfold bind. specialize (Hm w).
  destruct (m w) as [a w'|e w']; cbn [world_of] in *.
  - now rewrite Hk.
  - assumption.
Qed.

Lemma kept_get {B A} (f : world -> B) (g : world -> A) : keeps f (get g).
Proof. intros w. reflexivity. Qed.

Lemma kept_modify {B} (f : world -> B) (g : world -> world) :
  (forall w, f (g w) = f w) -> keeps f (modify g).
Proof. intros H w. apply H. Qed.

Lemma kept_for_loop {B L} (f : world -> B) (body : Z -> L -> M L) (n : nat) :
  (forall i l, keeps f (body i l)) ->
  forall i l, keeps f (for_loop n i body l).
Proof.
  intros Hbody. induction n as [|n IH]; intros i l.
  - apply kept_ret.
  - simpl. apply kept_bind; [apply Hbody|]. intros l'. apply IH.
Qed.

Lemma kept_wrap_around {B} (f : world -> B) (fuel : nat) :
  forall pos, keeps f (wrap_around fuel pos).
Proof.
  induction fuel as [|fuel IH]; intros pos w; simpl;
    destruct (pos >=? memUsage w); try reflexivity.
  apply IH.
Qed.

(** The size of the array is a global no benchmark assigns. *)
Lemma memUsage_kept_by_read (junk clock : nat -> Z)
    (avail : list event -> N) (fuel : nat) :
  keeps memUsage (memoryLatencyRead junk clock avail fuel).
Proof.
  unfold memoryLatencyRead, init_loop, read_loop, delete_array, report, cout.
  repeat first
    [ apply kept_ret | apply kept_get
    | apply kept_modify; intros; reflexivity
    | apply kept_for_loop; intros
    | apply kept_bind; [|intros] ];
    try (intros w; reflexivity).
  - intros w. unfold new_array.
    destruct (_ <=? Z.of_N (avail (events w))); reflexivity.
  - intros w. unfold init_body, store.
    destruct (i <? Z.of_nat (length l)); reflexivity.
  - destruct l as [p pos]. unfold read_body, advance, load.
    apply kept_bind; [|intros v].
    { intros w. destruct (p !! Z.to_nat pos); reflexivity. }
    apply kept_bind; [apply kept_modify; intros; reflexivity|intros _].
    apply kept_bind; [apply kept_wrap_around|intros pos'].
    apply kept_ret.
Qed.

(** ** Uninitialised memory *)

Lemma read_ignores_junk (junk1 junk2 clock : nat -> Z)
    (avail : list event -> N) (fuel : nat) (w : world) :
  0 <= memUsage w < 2 ^ 64 ->
  memoryLatencyRead junk1 clock avail fuel w
  = memoryLatencyRead junk2 clock avail fuel w.
Proof.
  intros HN.
  unfold memoryLatencyRead, bind, cout, modify, get, new_array.
  destruct (memUsage (emit _ w) <=? Z.of_N (avail (events (emit _ w))));
    [|reflexivity].
  rewrite (init_loop_ok (junk1 <$> _))
    by (rewrite ?length_new; cbn [memUsage log emit]; lia).
  rewrite (init_loop_ok (junk2 <$> _))
    by (rewrite ?length_new; cbn [memUsage log emit]; lia).
  reflexivity.
Qed.

Lemma write_ignores_junk (junk1 junk2 clock : nat -> Z)
    (avail : list event -> N) (fuel : nat) (w : world) :
  0 <= memUsage w < 2 ^ 64 ->
  memoryLatencyWrite junk1 clock avail fuel w
  = memoryLatencyWrite junk2 clock avail fuel w.
Proof.
  intros HN.
  unfold memoryLatencyWrite, bind, cout, modify, get, new_array.
  destruct (memUsage (emit _ w) <=? Z.of_N (avail (events (emit _ w))));
    [|reflexivity].
  rewrite (init_loop_ok (junk1 <$> _))
    by (rewrite ?length_new; cbn [memUsage log emit]; lia).
  rewrite (init_loop_ok (junk2 <$> _))
    by (rewrite ?length_new; cbn [memUsage log emit]; lia).
  reflexivity.
Qed.

(** Two sequences agree when their first parts agree and their second parts
    agree on what the first part can return. *)
Lemma bind_ext {A B} (m1 m2 : M A) (k1 k2 : A -> M B) (w : world) :
  m1 w = m2 w ->
  (forall a w', m2 w = Ok a w' -> k1 a w' = k2 a w') ->
  bind m1 k1 w = bind m2 k2 w.
Proof.
  intros Hm Hk. unfold bind. rewrite Hm.
  destruct (m2 w) as [a w'|e w']; [now apply Hk|reflexivity].
Qed.

(** X5.  The cells of a freshly allocated array are not initialised, and
    nothing the program does depends on what they hold: the initialisation
    loop writes every cell before the timed loop reads one.  Two runs that
    differ only in the contents of fresh memory end alike, whatever the
    command line, and so do the two benchmarks from every state. *)
Theorem X5_fresh_memory_never_read (junk1 junk2 clock : nat -> Z)
    (avail : list event -> N) (fuel : nat) :
  (forall argv,
      run junk1 clock avail fuel argv = run junk2 clock avail fuel argv)
  /\ (forall w,
        0 <= memUsage w < 2 ^ 64 ->
        memoryLatencyRead junk1 clock avail fuel w
        = memoryLatencyRead junk2 clock avail fuel w
        /\ memoryLatencyWrite junk1 clock avail fuel w
           = memoryLatencyWrite junk2 clock avail fuel w).
Proof.
  split.
  - intros argv. unfold run, main.
    destruct (argc argv <? 3); [reflexivity|].
    apply bind_ext; [reflexivity|]. intros [] w0 E0.
    pose proof (configure_memUsage_range argv _ _ E0) as [H0 _].
    apply bind_ext; [apply read_ignores_junk; lia|]. intros [] w1 E1.
    pose proof (memUsage_kept_by_read junk2 clock avail fuel w0) as Hk.
    rewrite E1 in Hk. cbn [world_of] in Hk.
    apply bind_ext; [apply write_ignores_junk; lia|]. reflexivity.
  - intros w HN. split.
    + now apply read_ignores_junk.
    + now apply write_ignores_junk.
Qed.

(** What a fresh array holds shows in a load that comes before a store. *)
Example fresh_array_shows_junk :
  (p <- new_array (fun _ => 7) (fun _ => 2%N) 2 ;; load p 1) initial_world
  = Ok 7 (log [EvNew 2; EvLoad 1 7] initial_world).
Proof. reflexivity. Qed.

(** ** The bytes read and the offsets visited *)


(** In an array whose size is a multiple of 64 every offset visited is one;
    when the size is a multiple of 256 the byte found there is
    [64 * (k mod 4)]. *)
Lemma cursor_mod_64 (N k : Z) : 0 < N -> (64 | N) -> cursor N k mod 64 = 0.
Proof.
  intros HN Hdiv. unfold cursor.
  rewrite Z.mod_mod_divide by assumption.
  replace (1088 * k) with (17 * k * 64) by lia. apply Z_mod_mult.
Qed.










(** Two rounds less than [L] apart visit different offsets of an array of
    [64 * L] bytes, when 17 and [L] have no common factor. *)
Lemma cursor_injective (N L j k : Z) :
  N = 64 * L -> Z.gcd L 17 = 1 -> 0 <= j < k -> k - j < L ->
  cursor N j <> cursor N k.
Proof.
  intros -> Hgcd Hjk HL Heq. unfold cursor in Heq.
  assert (Hdiv : (64 * L | 64 * (17 * (k - j)))).
  { apply Z.mod_divide; [lia|].
    replace (64 * (17 * (k - j))) with (1088 * k - 1088 * j) by lia.
    rewrite Zminus_mod, Heq, Z.sub_diag. apply Zmod_0_l. }
  apply Z.mul_divide_cancel_l in Hdiv; [|lia].
  apply Z.gauss in Hdiv; [|assumption].
  apply Z.divide_pos_le in Hdiv; lia.
Qed.

(** The offsets visited repeat after [P] rounds in an array of [1088 * P]
    bytes. *)
Lemma cursor_periodic (N P k : Z) :
  N = 1088 * P -> cursor N (k + P) = cursor N k.
Proof.
  intros ->. unfold cursor.
  replace (1088 * (k + P)) with (1088 * k + 1 * (1088 * P)) by lia.
  apply Z_mod_plus_full.
Qed.

(** The offsets of the accesses a timed loop adds to the log. *)
Lemma read_positions (N : Z) (p : list Z) (n k : Z) :
  0 <= k < n ->
  access_pos <$> read_events N p n !! Z.to_nat k = Some (Some (cursor N k)).
Proof. intros H. now rewrite read_events_lookup. Qed.

Lemma write_positions (N n k : Z) :
  0 <= k < n ->
  access_pos <$> write_events N n !! Z.to_nat k = Some (Some (cursor N k)).
Proof. intros H. now rewrite write_events_lookup. Qed.

(** X8.  In an array of [64 * L] bytes with [L] not a multiple of 17 (of
    [m] MiB with [m] not a multiple of 17), [L] successive rounds of a timed
    loop visit [L] different offsets, all multiples of 64: one in each cache
    line of the array. *)
Theorem X8_rounds_visit_distinct_lines (fuel : nat) (N L nrOps : Z)
    (p : list Z) (w : world) :
  1 <= L -> N = 64 * L -> Z.gcd L 17 = 1 -> N + 1088 <= 2 ^ 64 ->
  memUsage w = N -> Z.of_nat (length p) = N -> 0 <= nrOps < 2 ^ 64 ->
  (1088 <= fuel)%nat ->
  (exists w' es,
      read_loop fuel nrOps (p, 0) w = Ok (p, (1088 * nrOps) mod N) w'
      /\ events w' = events w ++ es
      /\ forall j k,
          0 <= j < k -> k < nrOps -> k - j < L ->
          exists oj ok,
            access_pos <$> es !! Z.to_nat j = Some (Some oj)
            /\ access_pos <$> es !! Z.to_nat k = Some (Some ok)
            /\ oj mod 64 = 0 /\ ok mod 64 = 0 /\ oj <> ok)
  /\ (exists p' w' es,
        write_loop fuel nrOps (p, 0) w = Ok (p', (1088 * nrOps) mod N) w'
        /\ events w' = events w ++ es
        /\ forall j k,
            0 <= j < k -> k < nrOps -> k - j < L ->
            exists oj ok,
              access_pos <$> es !! Z.to_nat j = Some (Some oj)
              /\ access_pos <$> es !! Z.to_nat k = Some (Some ok)
              /\ oj mod 64 = 0 /\ ok mod 64 = 0 /\ oj <> ok).
Proof.
  intros HL HN Hgcd Hmax HM Hlen Hn Hfuel.
  assert (Hdiv : (64 | N)) by (exists L; lia).
  split.
  - eexists _, _.
    split; [apply (read_loop_ok fuel N nrOps); assumption || lia|].
    split; [reflexivity|]. intros j k Hjk Hk Hd.
    exists (cursor N j), (cursor N k).
    rewrite !read_positions by lia.
    rewrite !cursor_mod_64 by (assumption || lia).
    repeat split. now apply (cursor_injective N L).
  - eexists _, _, _.
    split; [apply (write_loop_ok fuel N nrOps); assumption || lia|].
    split; [reflexivity|]. intros j k Hjk Hk Hd.
    exists (cursor N j), (cursor N k).
    rewrite !write_positions by lia.
    rewrite !cursor_mod_64 by (assumption || lia).
    repeat split. now apply (cursor_injective N L).
Qed.

Lemma X8_rounds_visit_distinct_lines_witness :
  Z.gcd 2 17 = 1
  /\ exists w' es,
      read_loop 1088 4 (pattern 128, 0) (set_memUsage 128 initial_world)
      = Ok (pattern 128, (1088 * 4) mod 128) w'
      /\ events w' = events (set_memUsage 128 initial_world) ++ es
      /\ forall j k,
          0 <= j < k -> k < 4 -> k - j < 2 ->
          exists oj ok,
            access_pos <$> es !! Z.to_nat j = Some (Some oj)
            /\ access_pos <$> es !! Z.to_nat k = Some (Some ok)
            /\ oj mod 64 = 0 /\ ok mod 64 = 0 /\ oj <> ok.
Proof.
  split; [reflexivity|].
  refine (proj1 (X8_rounds_visit_distinct_lines 1088 128 2 4 (pattern 128)
                   (set_memUsage 128 initial_world) _ eq_refl eq_refl _
                   eq_refl eq_refl _ (Nat.le_refl 1088))); lia.
Defined.

(** X9.  In an array of [1088 * P] bytes (of [m] MiB with [m] a multiple of
    17, as with [fuxx 17 16]) the timed loops are back at offset 0 after [P]
    rounds and visit the same [P] offsets again and again: one cache line in
    17, whatever the number of rounds. *)
Theorem X9_stride_divides_size (fuel : nat) (N P nrOps : Z) (p : list Z)
    (w : world) :
  1 <= P -> N = 1088 * P -> N + 1088 <= 2 ^ 64 ->
  memUsage w = N -> Z.of_nat (length p) = N -> 0 <= nrOps < 2 ^ 64 ->
  (1088 <= fuel)%nat ->
  (exists w' es,
      read_loop fuel nrOps (p, 0) w = Ok (p, (1088 * nrOps) mod N) w'
      /\ events w' = events w ++ es
      /\ (forall k, 0 <= k < P -> k < nrOps ->
            access_pos <$> es !! Z.to_nat k = Some (Some (1088 * k)))
      /\ (forall k, 0 <= k -> k + P < nrOps ->
            access_pos <$> es !! Z.to_nat (k + P)
            = access_pos <$> es !! Z.to_nat k))
  /\ (exists p' w' es,
        write_loop fuel nrOps (p, 0) w = Ok (p', (1088 * nrOps) mod N) w'
        /\ events w' = events w ++ es
        /\ (forall k, 0 <= k < P -> k < nrOps ->
              access_pos <$> es !! Z.to_nat k = Some (Some (1088 * k)))
        /\ (forall k, 0 <= k -> k + P < nrOps ->
              access_pos <$> es !! Z.to_nat (k + P)
              = access_pos <$> es !! Z.to_nat k)).
Proof.
  intros HP HN Hmax HM Hlen Hn Hfuel.
  assert (Hsmall : forall k, 0 <= k < P -> cursor N k = 1088 * k)
    by (intros k Hk; unfold cursor; apply Z.mod_small; lia).
  split.
  - eexists _, _.
    split; [apply (read_loop_ok fuel N nrOps); assumption || lia|].
    split; [reflexivity|]. split.
    + intros k Hk Hkn. rewrite read_positions by lia. now rewrite Hsmall.
    + intros k Hk Hkn. rewrite !read_positions by lia.
      now rewrite (cursor_periodic N P).
  - eexists _, _, _.
    split; [apply (write_loop_ok fuel N nrOps); assumption || lia|].
    split; [reflexivity|]. split.
    + intros k Hk Hkn. rewrite write_positions by lia. now rewrite Hsmall.
    + intros k Hk Hkn. rewrite !write_positions by lia.
      now rewrite (cursor_periodic N P).
Qed.

Lemma X9_stride_divides_size_witness :
  exists w' es,
    read_loop 1088 5 (pattern 2176, 0) (set_memUsage 2176 initial_world)
    = Ok (pattern 2176, (1088 * 5) mod 2176) w'
    /\ events w' = events (set_memUsage 2176 initial_world) ++ es
    /\ (forall k, 0 <= k < 2 -> k < 5 ->
          access_pos <$> es !! Z.to_nat k = Some (Some (1088 * k)))
    /\ (forall k, 0 <= k -> k + 2 < 5 ->
          access_pos <$> es !! Z.to_nat (k + 2)
          = access_pos <$> es !! Z.to_nat k).
Proof.
  refine (proj1 (X9_stride_divides_size 1088 2176 2 5 (pattern 2176)
                   (set_memUsage 2176 initial_world) _ eq_refl _
                   eq_refl eq_refl _ (Nat.le_refl 1088))); lia.
Defined.

(** ** The output of a complete run *)




(** ** Edge cases of the loops *)

(** X11.  With [memUsage = 0], the value the global has before [main] sets
    it, and at least one round to make, either benchmark allocates an empty
    array, reads the clock and makes its first access, [p[0]], outside the
    array; nothing is accessed before. *)
Theorem X11_empty_array (junk clock : nat -> Z) (avail : list event -> N)
    (fuel : nat) (w : world) :
  memUsage w = 0 -> 1 <= nrTries_of (timeFactor w) ->
  (exists w',
      memoryLatencyRead junk clock avail fuel w = Abort OutOfBounds w'
      /\ events w' = events w ++ [EvNew 0; EvNow (clock (ticks w))])
  /\ (exists w',
        memoryLatencyWrite junk clock avail fuel w = Abort OutOfBounds w'
        /\ events w' = events w ++ [EvNew 0; EvNow (clock (ticks w))]).
Proof.
  intros HN Hn.
  destruct (Z.to_nat (nrTries_of (timeFactor w))) as [|n] eqn:En; [lia|].
  split.
  - unfold memoryLatencyRead.
    do 2 (erewrite bind_ok by reflexivity).
    erewrite bind_ok
      by (apply new_array_ok; cbn [memUsage events emit]; lia).
    erewrite bind_ok by reflexivity.
    erewrite bind_ok
      by (apply init_loop_ok; rewrite ?length_new;
          cbn [memUsage log emit]; lia).
    erewrite bind_ok by reflexivity.
    cbn [memUsage timeFactor ticks log emit tick]. rewrite HN.
    eexists. split.
    + apply bind_abort. unfold read_loop. rewrite En. reflexivity.
    + cbn [events log emit tick]. rewrite <- !app_assoc. reflexivity.
  - unfold memoryLatencyWrite.
    do 2 (erewrite bind_ok by reflexivity).
    erewrite bind_ok
      by (apply new_array_ok; cbn [memUsage events emit]; lia).
    erewrite bind_ok by reflexivity.
    erewrite bind_ok
      by (apply init_loop_ok; rewrite ?length_new;
          cbn [memUsage log emit]; lia).
    erewrite bind_ok by reflexivity.
    cbn [memUsage timeFactor ticks log emit tick]. rewrite HN.
    eexists. split.
    + apply bind_abort. unfold write_loop. rewrite En. reflexivity.
    + cbn [events log emit tick]. rewrite <- !app_assoc. reflexivity.
Qed.

Lemma X11_empty_array_witness :
  memUsage initial_world = 0
  /\ exists w',
      memoryLatencyRead (fun _ => 0) (fun _ => 0) (fun _ => 0%N) 1088
        initial_world
      = Abort OutOfBounds w'
      /\ events w' = events initial_world ++ [EvNew 0; EvNow 0].
Proof.
  assert (Hn : 1 <= nrTries_of (timeFactor initial_world))
    by (vm_compute; discriminate).
  split; [reflexivity|].
  exact (proj1 (X11_empty_array (fun _ => 0) (fun _ => 0) (fun _ => 0%N) 1088
                  initial_world eq_refl Hn)).
Defined.

(** X12.  In an array of 1088 bytes or more (and [main] sets 1 MiB at
    least) the loop that wraps the cursor subtracts at most once: not at all
    while the cursor plus the stride is inside the array, once when it is
    not. *)
Theorem X12_at_most_one_subtraction (pos : Z) (w : world) :
  1088 <= memUsage w -> memUsage w + 1088 <= 2 ^ 64 ->
  0 <= pos < memUsage w ->
  (pos + 1088 < memUsage w -> advance 0 pos w = Ok (pos + 1088) w)
  /\ (memUsage w <= pos + 1088 ->
        advance 0 pos w = Abort OutOfFuel w
        /\ advance 1 pos w = Ok (pos + 1088 - memUsage w) w).
Proof.
  intros HN Hmax Hpos. unfold advance. change (17 * 64) with 1088.
  rewrite wrap64_small by lia. split.
  - intros H. cbn [wrap_around].
    destruct (Z.geb_spec (pos + 1088) (memUsage w)); [lia|reflexivity].
  - intros H. cbn [wrap_around].
    destruct (Z.geb_spec (pos + 1088) (memUsage w)); [|lia].
    split; [reflexivity|].
    rewrite wrap64_small by lia.
    destruct (Z.geb_spec (pos + 1088 - memUsage w) (memUsage w));
      [lia|reflexivity].
Qed.

Lemma X12_at_most_one_subtraction_witness :
  advance 0 1047552 (set_memUsage 1048576 initial_world)
  = Abort OutOfFuel (set_memUsage 1048576 initial_world)
  /\ advance 1 1047552 (set_memUsage 1048576 initial_world)
     = Ok (1047552 + 1088 - memUsage (set_memUsage 1048576 initial_world))
         (set_memUsage 1048576 initial_world).
Proof.
  refine (proj2 (X12_at_most_one_subtraction 1047552
                   (set_memUsage 1048576 initial_world) _ _ _) _);
    cbn; lia.
Defined.
